(** * OpenSky time clock

    A shallow embedding of the time-entry routes (backend/routes/time.js),
    the admin approval and payroll routes (backend/routes/admin.js), the
    client-side form validation (frontend TimeEntryModal.tsx) and the
    pay-period calculator (frontend types/index.ts), followed by the
    properties of the specification that were checked against them.

    Conventions of the embedding:
    - a table is the list of its rows, in insertion order; a SELECT is a
      [filter], an UPDATE a [map], an INSERT appends a row;
    - an instant (TIMESTAMP column, JS Date) is its number of milliseconds
      since the epoch, a [Z]; CURRENT_TIMESTAMP / NOW() is the argument
      [now] of a handler; where Dates are computed with, a Date is an
      [option Z], [None] being the Invalid Date, and the time zone of the
      host is an argument;
    - a nullable column is an [option];
    - a handler maps the database to an HTTP response and the database
      after the request. *)

From Stdlib Require Import ZArith List Bool Lia.
From Stdlib Require Import Strings.String.
From Stdlib Require Import Floats.
Import ListNotations.
Local Open Scope Z_scope.

(* ===================================================================== *)
(** ** The database *)
(* ===================================================================== *)

Module Db.

(** The values the code writes to time_entries.approval_status. *)
Inductive approval := Pending | Approved | Denied.

Definition approval_eqb (a b : approval) : bool :=
  match a, b with
  | Pending, Pending | Approved, Approved | Denied, Denied => true
  | _, _ => false
  end.

(** [approval_status = s] / [row.approval_status === s] on a nullable column. *)
Definition status_is (s : approval) (o : option approval) : bool :=
  match o with
  | Some a => approval_eqb a s
  | None => false
  end.

Definition is_null {A : Type} (o : option A) : bool :=
  match o with
  | None => true
  | Some _ => false
  end.

(** SQL COALESCE(o, d). *)
Definition coalesce {A : Type} (o : option A) (d : A) : A :=
  match o with
  | Some a => a
  | None => d
  end.

(** JS truthiness of a nullable boolean column. *)
Definition truthy (o : option bool) : bool := coalesce o false.

(** A row of time_entries (schema.sql, migration 0001). *)
Record time_entry := mkEntry {
  te_id : Z;
  te_user_id : Z;
  te_clock_in : Z;
  te_clock_out : option Z;
  te_is_manual : option bool;
  te_approval_status : option approval;
  te_approved_by : option Z;
  te_approval_date : option Z;
  te_approval_notes : option string;
  te_created_at : Z
}.

(** time_entry_audit.action: create|update|fallback-flag|approve|deny. *)
Inductive action := A_create | A_update | A_fallback_flag | A_approve | A_deny.

(** A row of time_entry_audit. *)
Record audit_row := mkAudit {
  au_time_entry_id : Z;
  au_user_id : Z;
  au_action : action;
  au_previous_clock_in : option Z;
  au_previous_clock_out : option Z;
  au_new_clock_in : option Z;
  au_new_clock_out : option Z;
  au_previous_approval_status : option approval;
  au_new_approval_status : option approval
}.

(** The two tables and the SERIAL counter of time_entries.id. *)
Record db := mkDb {
  entries : list time_entry;
  audit : list audit_row;
  next_id : Z
}.

Definition empty_db : db := mkDb [] [] 1.

(** UPDATE time_entries SET ... WHERE p: the table after the update. *)
Definition update_where (p : time_entry -> bool) (f : time_entry -> time_entry)
    (rows : list time_entry) : list time_entry :=
  map (fun e => if p e then f e else e) rows.

(** The rows an UPDATE ... WHERE p RETURNING hands back. *)
Definition returning (p : time_entry -> bool) (f : time_entry -> time_entry)
    (rows : list time_entry) : list time_entry :=
  map f (filter p rows).

Definition insert_audit (a : audit_row) (d : db) : db :=
  mkDb (entries d) (audit d ++ [a]) (next_id d).

Definition set_entries (rows : list time_entry) (d : db) : db :=
  mkDb rows (audit d) (next_id d).

(** [x BETWEEN a AND b]. *)
Definition between (x a b : Z) : bool := (a <=? x) && (x <=? b).

(** The entries of a subject that are in progress. *)
Definition active_of (uid : Z) (d : db) : list time_entry :=
  filter (fun e => (te_user_id e =? uid) && is_null (te_clock_out e)) (entries d).

End Db.
Import Db.

(* ===================================================================== *)
(** ** Requests and responses *)
(* ===================================================================== *)

(** A field of a JSON request body, as far as the handlers look at it.
    [Falsy]: undefined, null, the empty string, 0 or false.
    [Blank]: a non-empty string made of white space ([trim()] is empty,
    [new Date] of it is invalid).
    [Text t]: any other string; [t] is the time value of [new Date] of it,
    [None] when that is an Invalid Date.
    [NonString t]: a truthy value that is no string (a number, [true], an
    object): it has no [trim] method; [t] as for [Text]. *)
Inductive body_field :=
| Falsy
| Blank
| Text (t : option Z)
| NonString (t : option Z).

(** [new Date(f).getTime()], [None] for NaN; used on fields that are not falsy. *)
Definition new_Date (f : body_field) : option Z :=
  match f with
  | Falsy | Blank => None
  | Text t | NonString t => t
  end.

(** [f && f.trim()]: [None] when evaluating it throws a TypeError, else its
    truthiness. *)
Definition and_trim (f : body_field) : option bool :=
  match f with
  | Falsy => Some false
  | Blank => Some false
  | Text _ => Some true
  | NonString _ => None
  end.

(** The [entry] object of the responses of the time routes. [hoursWorked], a
    formatted string derived from the two instants, is left out. *)
Record entry_view := mkView {
  v_id : Z;
  v_clockIn : Z;
  v_clockOut : option Z;
  v_isManual : option bool;
  v_approvalStatus : option approval
}.

(** The [entry] object of the approval response. *)
Record review_view := mkReview {
  rv_id : Z;
  rv_clockIn : Z;
  rv_clockOut : option Z;
  rv_approvalStatus : option approval;
  rv_approvalNotes : option string;
  rv_approvedAt : option Z
}.

(** The responses the modelled handlers send, one constructor per [res.json]. *)
Inductive response :=
| R_clocked_in (id clockIn : Z)                 (* 201 *)
| R_already_clocked_in                          (* 400 *)
| R_clocked_out (id clockIn : Z) (clockOut : option Z)  (* 200 *)
| R_no_active_clock_in                          (* 400 *)
| R_not_found                                   (* 404, no code *)
| R_cannot_delete_active                        (* 400 *)
| R_deleted                                     (* 200 *)
| R_clock_in_required                           (* 400 *)
| R_clock_out_required                          (* 400 *)
| R_invalid_clock_in                            (* 400 *)
| R_invalid_clock_out                           (* 400 *)
| R_clock_order                                 (* 400 CLOCK_ORDER *)
| R_overlap                                     (* 400 OVERLAP *)
| R_created (e : entry_view)                    (* 201 *)
| R_create_fail                                 (* 500 CREATE_FAIL *)
| R_active_edit_forbidden                       (* 400 ACTIVE_EDIT_FORBIDDEN *)
| R_no_changes (e : entry_view)                 (* 200 *)
| R_updated (reset : bool) (e : entry_view)     (* 200 *)
| R_fallback_not_found                          (* 404 NOT_FOUND *)
| R_flagged (e : entry_view)                    (* 202, reviewFlagged *)
| R_fallback_fail                               (* 500 FALLBACK_FAIL *)
| R_bad_status                                  (* 400 *)
| R_manual_not_found                            (* 404 *)
| R_already_reviewed                            (* 400 *)
| R_reviewed (e : review_view)                  (* 200 *)
| R_internal_error.                             (* 500 *)

Definition http_status (r : response) : Z :=
  match r with
  | R_clocked_in _ _ | R_created _ => 201
  | R_flagged _ => 202
  | R_clocked_out _ _ _ | R_deleted | R_no_changes _ | R_updated _ _
  | R_reviewed _ => 200
  | R_not_found | R_fallback_not_found | R_manual_not_found => 404
  | R_create_fail | R_fallback_fail | R_internal_error => 500
  | _ => 400
  end.

(** A 2xx response. *)
Definition succeeded (r : response) : bool :=
  (200 <=? http_status r) && (http_status r <? 300).

(** The [code] field of an error response, where the handler sets one. *)
Inductive error_code :=
| CLOCK_ORDER | OVERLAP | ACTIVE_EDIT_FORBIDDEN | INVALID_CLOCK_IN
| INVALID_CLOCK_OUT | CREATE_FAIL | NOT_FOUND | FALLBACK_FAIL.

Definition code_of (r : response) : option error_code :=
  match r with
  | R_clock_order => Some CLOCK_ORDER
  | R_overlap => Some OVERLAP
  | R_active_edit_forbidden => Some ACTIVE_EDIT_FORBIDDEN
  | R_invalid_clock_in => Some INVALID_CLOCK_IN
  | R_invalid_clock_out => Some INVALID_CLOCK_OUT
  | R_create_fail => Some CREATE_FAIL
  | R_fallback_not_found => Some NOT_FOUND
  | R_fallback_fail => Some FALLBACK_FAIL
  | _ => None
  end.

(* ===================================================================== *)
(** ** backend/routes/time.js *)
(* ===================================================================== *)

Module TimeRoutes.

(** POST /clock-in. *)
Definition clock_in (now userId : Z) (d : db) : response * db :=
  match active_of userId d with
  | _ :: _ => (R_already_clocked_in, d)
  | [] =>
      let timeEntry :=
        mkEntry (next_id d) userId now None (Some false) (Some Approved)
                None None None now in
      (R_clocked_in (te_id timeEntry) (te_clock_in timeEntry),
       mkDb (entries d ++ [timeEntry]) (audit d) (next_id d + 1))
  end.

Definition set_clock_out (t : option Z) (e : time_entry) : time_entry :=
  mkEntry (te_id e) (te_user_id e) (te_clock_in e) t (te_is_manual e)
          (te_approval_status e) (te_approved_by e) (te_approval_date e)
          (te_approval_notes e) (te_created_at e).

(** POST /clock-out. *)
Definition clock_out (now userId : Z) (d : db) : response * db :=
  match active_of userId d with
  | [] => (R_no_active_clock_in, d)
  | activeEntry :: _ =>
      let entryId := te_id activeEntry in
      let p := fun e => te_id e =? entryId in
      let d' := set_entries (update_where p (set_clock_out (Some now)) (entries d)) d in
      match returning p (set_clock_out (Some now)) (entries d) with
      | timeEntry :: _ =>
          (R_clocked_out entryId (te_clock_in timeEntry) (te_clock_out timeEntry), d')
      | [] => (R_internal_error, d')
      end
  end.

(** SELECT ... FROM time_entries WHERE id = $1 AND user_id = $2. *)
Definition select_owned (entryId userId : Z) (d : db) : list time_entry :=
  filter (fun e => (te_id e =? entryId) && (te_user_id e =? userId)) (entries d).

(** DELETE /entry/:id. The audit rows of the entry go with it
    (time_entry_id ... ON DELETE CASCADE). *)
Definition delete_entry (userId entryId : Z) (d : db) : response * db :=
  match select_owned entryId userId d with
  | [] => (R_not_found, d)
  | _ :: _ =>
      match filter (fun e => (te_id e =? entryId) && is_null (te_clock_out e)) (entries d) with
      | _ :: _ => (R_cannot_delete_active, d)
      | [] =>
          (R_deleted,
           mkDb (filter (fun e => negb (te_id e =? entryId)) (entries d))
                (filter (fun a => negb (au_time_entry_id a =? entryId)) (audit d))
                (next_id d))
      end
  end.

(** The four BETWEEN tests shared by the overlap queries, on one row:
    $in BETWEEN clock_in AND COALESCE(clock_out, NOW())
    OR $out BETWEEN clock_in AND COALESCE(clock_out, NOW())
    OR clock_in BETWEEN $in AND $out
    OR COALESCE(clock_out, NOW()) BETWEEN $in AND $out. *)
Definition intervals_meet (now cin cout : Z) (e : time_entry) : bool :=
  between cin (te_clock_in e) (coalesce (te_clock_out e) now)
  || between cout (te_clock_in e) (coalesce (te_clock_out e) now)
  || between (te_clock_in e) cin cout
  || between (coalesce (te_clock_out e) now) cin cout.

(** The WHERE clause of the overlap query of POST /entry. *)
Definition overlap_create (now userId cin cout : Z) (e : time_entry) : bool :=
  (te_user_id e =? userId)
  && (is_null (te_approval_status e) || status_is Approved (te_approval_status e))
  && intervals_meet now cin cout e.

(** The WHERE clause of the overlap query of PUT /entry/:id when both
    instants are given. *)
Definition overlap_update (now userId entryId cin cout : Z) (e : time_entry) : bool :=
  (te_user_id e =? userId) && negb (te_id e =? entryId)
  && intervals_meet now cin cout e.

(** The tests of the overlap query of PUT /entry/:id when only the clock-in
    is given, on one row:
    $in BETWEEN clock_in AND COALESCE(clock_out, NOW())
    OR (clock_in <= $in AND clock_out IS NULL). *)
Definition open_meets (now cin : Z) (e : time_entry) : bool :=
  between cin (te_clock_in e) (coalesce (te_clock_out e) now)
  || ((te_clock_in e <=? cin) && is_null (te_clock_out e)).

(** The WHERE clause of that query. *)
Definition overlap_update_open (now userId entryId cin : Z) (e : time_entry) : bool :=
  (te_user_id e =? userId) && negb (te_id e =? entryId) && open_meets now cin e.

Definition view_of (e : time_entry) (isManual : option bool) : entry_view :=
  mkView (te_id e) (te_clock_in e) (te_clock_out e) isManual (te_approval_status e).

(** POST /entry: create a manual entry. *)
Definition post_entry (now userId : Z) (clockIn clockOut : body_field) (d : db)
    : response * db :=
  match clockIn with
  | Falsy => (R_clock_in_required, d)
  | _ =>
    match clockOut with
    | Falsy | Blank => (R_clock_out_required, d)
    | NonString _ => (R_create_fail, d)      (* clockOut.trim is not a function *)
    | Text _ =>
      match new_Date clockIn, new_Date clockOut with
      | None, _ => (R_invalid_clock_in, d)
      | Some _, None => (R_invalid_clock_out, d)
      | Some clockInDate, Some clockOutDate =>
        if clockOutDate <=? clockInDate then (R_clock_order, d)
        else
          match filter (overlap_create now userId clockInDate clockOutDate) (entries d) with
          | _ :: _ => (R_overlap, d)
          | [] =>
              let timeEntry :=
                mkEntry (next_id d) userId clockInDate (Some clockOutDate)
                        (Some true) (Some Pending) None None None now in
              let a :=
                mkAudit (te_id timeEntry) userId A_create None None
                        (Some (te_clock_in timeEntry)) (te_clock_out timeEntry)
                        None (te_approval_status timeEntry) in
              (R_created (view_of timeEntry (Some true)),
               mkDb (entries d ++ [timeEntry]) (audit d ++ [a]) (next_id d + 1))
          end
      end
    end
  end.

(** The statements of PUT /entry/:id that can fail: a rejected query throws,
    and the handler's catch block takes over. *)
Inductive query_point :=
| Q_entry_check | Q_overlap | Q_update | Q_audit     (* try block *)
| Q_verify | Q_flag | Q_flag_audit.                  (* catch block *)

(** Which statements fail during one request. *)
Definition faults := query_point -> bool.
Definition no_faults : faults := fun _ => false.

(** How the try block of PUT /entry/:id ends. *)
Inductive outcome :=
| Respond (r : response) (d : db)
| Throw (d : db).

Definition timesChanged (existingClockIn : Z) (existingClockOut : option Z)
    (clockInDate : Z) (clockOutDate : option Z) : bool :=
  negb (existingClockIn =? clockInDate)
  || (match existingClockOut, clockOutDate with
      | Some a, Some b => negb (a =? b)
      | _, _ => false
      end
      || negb (Bool.eqb (negb (is_null existingClockOut)) (negb (is_null clockOutDate)))).

Definition shouldResetToPending (existing : time_entry) (changed : bool) : bool :=
  negb (truthy (te_is_manual existing))
  || (changed && negb (status_is Pending (te_approval_status existing)))
  || (truthy (te_is_manual existing)
      && (status_is Approved (te_approval_status existing)
          || status_is Denied (te_approval_status existing))).

Definition apply_update (clockInDate : Z) (clockOutDate : option Z)
    (nextApprovalStatus : option approval) (nextIsManual : option bool)
    (e : time_entry) : time_entry :=
  mkEntry (te_id e) (te_user_id e) clockInDate clockOutDate nextIsManual
          nextApprovalStatus (te_approved_by e) (te_approval_date e)
          (te_approval_notes e) (te_created_at e).

(** The rows of the overlap query of PUT /entry/:id. *)
Definition overlapCheck (now userId entryId clockInDate : Z) (clockOutDate : option Z)
    (d : db) : list time_entry :=
  match clockOutDate with
  | Some cout => filter (overlap_update now userId entryId clockInDate cout) (entries d)
  | None => filter (overlap_update_open now userId entryId clockInDate) (entries d)
  end.

(** The try block of PUT /entry/:id once validation has passed: the reset
    rule, the short-circuit, the UPDATE, its audit row and the response. *)
Definition put_entry_apply (f : faults) (userId entryId : Z)
    (existing : time_entry) (clockInDate : Z) (clockOutDate : option Z) (d : db)
    : outcome :=
  let changed :=
    timesChanged (te_clock_in existing) (te_clock_out existing) clockInDate clockOutDate in
  let reset := shouldResetToPending existing changed in
  let nextApprovalStatus :=
    if reset then Some Pending
    else Some (coalesce (te_approval_status existing) Pending) in
  let nextIsManual := if reset then Some true else te_is_manual existing in
  if negb changed && truthy (te_is_manual existing)
     && status_is Pending (te_approval_status existing)
  then Respond (R_no_changes (view_of existing (Some true))) d
  else
    if f Q_update then Throw d else
    let p := fun e => te_id e =? entryId in
    let upd := apply_update clockInDate clockOutDate nextApprovalStatus nextIsManual in
    let result := returning p upd (entries d) in
    let d1 := set_entries (update_where p upd (entries d)) d in
    if f Q_audit then Throw d1 else
    let d2 :=
      insert_audit
        (mkAudit entryId userId A_update
                 (Some (te_clock_in existing)) (te_clock_out existing)
                 (Some clockInDate) clockOutDate
                 (te_approval_status existing) nextApprovalStatus) d1 in
    match result with
    | timeEntry :: _ =>
        Respond (R_updated reset (view_of timeEntry (te_is_manual timeEntry))) d2
    | [] => Throw d2                        (* timeEntry is undefined: TypeError *)
    end.

(** The try block of PUT /entry/:id from the overlap query on. *)
Definition put_entry_checked (f : faults) (now userId entryId : Z)
    (existing : time_entry) (clockInDate : Z) (clockOutDate : option Z) (d : db)
    : outcome :=
  if f Q_overlap then Throw d else
  match overlapCheck now userId entryId clockInDate clockOutDate d with
  | _ :: _ => Respond R_overlap d
  | [] =>
    if is_null (te_clock_out existing) then Respond R_active_edit_forbidden d
    else put_entry_apply f userId entryId existing clockInDate clockOutDate d
  end.

(** The try block of PUT /entry/:id. *)
Definition put_entry_try (f : faults) (now userId entryId : Z)
    (clockIn clockOut : body_field) (d : db) : outcome :=
  if f Q_entry_check then Throw d else
  match select_owned entryId userId d with
  | [] => Respond R_not_found d
  | existing :: _ =>
    match clockIn with
    | Falsy => Respond R_clock_in_required d
    | _ =>
      match and_trim clockOut with
      | None => Throw d                        (* clockOut.trim is not a function *)
      | Some provided =>
        match new_Date clockIn with
        | None => Respond R_invalid_clock_in d
        | Some clockInDate =>
          if provided then
            match new_Date clockOut with
            | None => Respond R_invalid_clock_out d
            | Some clockOutDate =>
              if clockOutDate <=? clockInDate then Respond R_clock_order d
              else put_entry_checked f now userId entryId existing
                     clockInDate (Some clockOutDate) d
            end
          else put_entry_checked f now userId entryId existing clockInDate None d
        end
      end
    end
  end.

(** The assignment of the fallback UPDATE:
    approval_status = 'pending', is_manual = COALESCE(is_manual, TRUE). *)
Definition flag_for_review (e : time_entry) : time_entry :=
  mkEntry (te_id e) (te_user_id e) (te_clock_in e) (te_clock_out e)
          (Some (coalesce (te_is_manual e) true)) (Some Pending)
          (te_approved_by e) (te_approval_date e) (te_approval_notes e)
          (te_created_at e).

(** The catch block of PUT /entry/:id (FallbackFlag). The verify query
    selects id, clock_in and clock_out only, so the previous approval status
    it records is null; the response says isManual: true whatever the row
    holds. *)
Definition fallback_flag (f : faults) (userId entryId : Z) (d : db) : response * db :=
  if f Q_verify then (R_fallback_fail, d) else
  match select_owned entryId userId d with
  | [] => (R_fallback_not_found, d)
  | verify :: _ =>
    if f Q_flag then (R_fallback_fail, d) else
    let p := fun e => te_id e =? entryId in
    let d1 := set_entries (update_where p flag_for_review (entries d)) d in
    match returning p flag_for_review (entries d) with
    | [] => (R_fallback_fail, d1)
    | flaggedEntry :: _ =>
      if f Q_flag_audit then (R_fallback_fail, d1) else
      let a :=
        mkAudit (te_id flaggedEntry) userId A_fallback_flag
                (Some (te_clock_in verify)) (te_clock_out verify)
                (Some (te_clock_in flaggedEntry)) (te_clock_out flaggedEntry)
                None (te_approval_status flaggedEntry) in
      (R_flagged (view_of flaggedEntry (Some true)), insert_audit a d1)
    end
  end.

(** PUT /entry/:id. *)
Definition put_entry (f : faults) (now userId entryId : Z)
    (clockIn clockOut : body_field) (d : db) : response * db :=
  match put_entry_try f now userId entryId clockIn clockOut d with
  | Respond r d' => (r, d')
  | Throw d' => fallback_flag f userId entryId d'
  end.

End TimeRoutes.
Import TimeRoutes.

(* ===================================================================== *)
(** ** backend/routes/admin.js: PATCH /entry/:id/approval *)
(* ===================================================================== *)

Module AdminRoutes.

(** The body and caller of an approval request. [ar_status] is [None] for a
    status that is neither 'approved' nor 'denied'; [ar_notes] is the notes
    text when one is sent. *)
Record approval_request := mkApproval {
  ar_id : Z;
  ar_status : option approval;
  ar_notes : option string;
  ar_adminId : Z
}.

(** [notes || null]. *)
Definition notes_or_null (n : option string) : option string :=
  match n with
  | Some EmptyString => None
  | other => other
  end.

(** SELECT id, approval_status FROM time_entries WHERE id = $1 AND is_manual = TRUE. *)
Definition select_manual (id : Z) (d : db) : list time_entry :=
  filter (fun e => (te_id e =? id) && truthy (te_is_manual e)) (entries d).

Definition decide_entry (status : approval) (adminId now : Z) (notes : option string)
    (e : time_entry) : time_entry :=
  mkEntry (te_id e) (te_user_id e) (te_clock_in e) (te_clock_out e) (te_is_manual e)
          (Some status) (Some adminId) (Some now)
          (match notes_or_null notes with
           | Some n => Some n
           | None => te_approval_notes e
           end)
          (te_created_at e).

(** Where one approval request stands. Each [await pool.query] of the handler
    is one step; other requests may run between two steps. *)
Inductive approval_pc :=
| P_start                                   (* nothing done yet *)
| P_checked (status : approval)             (* SELECT done, the row was pending *)
| P_updated (status : approval) (entry : time_entry)   (* UPDATE done *)
| P_done (r : response).                    (* response sent *)

Definition review_of (e : time_entry) : review_view :=
  mkReview (te_id e) (te_clock_in e) (te_clock_out e) (te_approval_status e)
           (te_approval_notes e) (te_approval_date e).

(** The SELECT of the handler and the two tests on its result. *)
Definition approval_check (status : approval) (rq : approval_request) (d : db)
    : approval_pc * db :=
  match select_manual (ar_id rq) d with
  | [] => (P_done R_manual_not_found, d)
  | row :: _ =>
      if status_is Pending (te_approval_status row)
      then (P_checked status, d)
      else (P_done R_already_reviewed, d)
  end.

(** One step of the handler. *)
Definition approval_step (now : Z) (rq : approval_request) (pc : approval_pc) (d : db)
    : approval_pc * db :=
  match pc with
  | P_start =>
      match ar_status rq with
      | Some Approved => approval_check Approved rq d
      | Some Denied => approval_check Denied rq d
      | _ => (P_done R_bad_status, d)
      end
  | P_checked status =>
      let p := fun e => te_id e =? ar_id rq in
      let upd := decide_entry status (ar_adminId rq) now (ar_notes rq) in
      let d1 := set_entries (update_where p upd (entries d)) d in
      match returning p upd (entries d) with
      | entry :: _ => (P_updated status entry, d1)
      | [] => (P_done R_internal_error, d1)   (* entry is undefined: TypeError *)
      end
  | P_updated status entry =>
      let a :=
        mkAudit (te_id entry) (ar_adminId rq)
                (match status with Approved => A_approve | _ => A_deny end)
                (Some (te_clock_in entry)) (te_clock_out entry)
                (Some (te_clock_in entry)) (te_clock_out entry)
                (Some Pending) (te_approval_status entry) in
      (P_done (R_reviewed (review_of entry)), insert_audit a d)
  | P_done r => (P_done r, d)
  end.

(** A request handled with no other request in between: its three steps. *)
Definition patch_approval (now : Z) (rq : approval_request) (d : db) : response * db :=
  let '(pc1, d1) := approval_step now rq P_start d in
  let '(pc2, d2) := approval_step now rq pc1 d1 in
  let '(pc3, d3) := approval_step now rq pc2 d2 in
  match pc3 with
  | P_done r => (r, d3)
  | _ => (R_internal_error, d3)
  end.

(** Two requests in flight; a schedule says which one takes the next step
    ([false]: the first, [true]: the second). *)
Record pair_state := mkPair {
  ps_first : approval_pc;
  ps_second : approval_pc;
  ps_db : db
}.

Definition pair_step (now : Z) (rq1 rq2 : approval_request) (s : pair_state)
    (second : bool) : pair_state :=
  if second then
    let '(pc, d) := approval_step now rq2 (ps_second s) (ps_db s) in
    mkPair (ps_first s) pc d
  else
    let '(pc, d) := approval_step now rq1 (ps_first s) (ps_db s) in
    mkPair pc (ps_second s) d.

Definition run_pair (now : Z) (rq1 rq2 : approval_request) (schedule : list bool)
    (d : db) : pair_state :=
  fold_left (pair_step now rq1 rq2) schedule (mkPair P_start P_start d).

End AdminRoutes.
Import AdminRoutes.

(* ===================================================================== *)
(** ** frontend/src/components/TimeEntryModal.tsx: validateForm *)
(* ===================================================================== *)

Module TimeEntryModal.

Inductive clock_out_error :=
| E_required         (* 'Clock out time is required for manual entries' *)
| E_not_after        (* 'Clock out time must be after clock in time' *)
| E_exceeds_24h.     (* 'Time entry cannot exceed 24 hours' *)

(** The [newErrors] object. *)
Record form_errors := mkErrors {
  err_clockIn : bool;                       (* 'Clock in time is required' *)
  err_clockOut : option clock_out_error
}.

(** The errors [validateForm] finds in the two pickers ([None]: no date
    picked). [diffHours > 24] compares a quotient of milliseconds by 3600000
    with 24, which holds exactly when the difference exceeds 86400000. *)
Definition form_check (clockIn clockOut : option Z) : form_errors :=
  mkErrors (is_null clockIn)
    (match clockOut with
     | None => Some E_required
     | Some cout =>
         match clockIn with
         | Some cin =>
             if cout <=? cin then Some E_not_after
             else if 86400000 <? cout - cin then Some E_exceeds_24h
             else None
         | None => None
         end
     end).

(** The result of [validateForm]: the form is submitted only when it is true. *)
Definition validateForm (clockIn clockOut : option Z) : bool :=
  let e := form_check clockIn clockOut in
  negb (err_clockIn e) && is_null (err_clockOut e).

End TimeEntryModal.

(* ===================================================================== *)
(** ** JavaScript dates (ECMA-262, Date objects) *)
(* ===================================================================== *)

(** The abstract operations of ECMA-262 on time values (Day, YearFromTime,
    MakeDay, ..., LocalTime, UTC, TimeClip) and the methods of Date built
    from them. A time value is a whole number of milliseconds since the
    epoch, in UTC, or NaN; the whole numbers concerned are below 2^53, where
    the arithmetic of the doubles is exact.
    The offset of local time is the host's: [LocalTZA t true] at the UTC
    time [t], [LocalTZA t false] at the local time [t], where a local time
    that a transition skips takes the offset before the transition. It is a
    parameter, [tz], of everything that reads or writes local time. *)
Module JsDate.

Definition msPerDay : Z := 86400000.

Definition Day (t : Z) : Z := t / msPerDay.
Definition TimeWithinDay (t : Z) : Z := t mod msPerDay.

Definition DaysInYear (y : Z) : Z :=
  if negb (y mod 4 =? 0) then 365
  else if negb (y mod 100 =? 0) then 366
  else if negb (y mod 400 =? 0) then 365
  else 366.

Definition DayFromYear (y : Z) : Z :=
  365 * (y - 1970) + (y - 1969) / 4 - (y - 1901) / 100 + (y - 1601) / 400.

(** The year a day number falls in: the largest [y] with
    [DayFromYear y <= d], found from the mean year length and one
    adjustment. *)
Definition YearFromDay (d : Z) : Z :=
  let y := 1970 + (400 * d) / 146097 in
  if d <? DayFromYear y then y - 1
  else if DayFromYear (y + 1) <=? d then y + 1
  else y.

Definition YearFromTime (t : Z) : Z := YearFromDay (Day t).

(** 1 in a leap year, else 0. *)
Definition InLeapYear (y : Z) : Z := if DaysInYear y =? 366 then 1 else 0.

Definition DayWithinYear (t : Z) : Z := Day t - DayFromYear (YearFromTime t).

(** The day within the year on which month [m] (0 to 11) starts; 365 + leap
    past December. *)
Definition monthStart (leap m : Z) : Z :=
  match m with
  | 0 => 0
  | 1 => 31
  | 2 => 59 + leap
  | 3 => 90 + leap
  | 4 => 120 + leap
  | 5 => 151 + leap
  | 6 => 181 + leap
  | 7 => 212 + leap
  | 8 => 243 + leap
  | 9 => 273 + leap
  | 10 => 304 + leap
  | 11 => 334 + leap
  | _ => 365 + leap
  end.

Definition MonthFromTime (t : Z) : Z :=
  let d := DayWithinYear t in
  let leap := InLeapYear (YearFromTime t) in
  if d <? 31 then 0
  else if d <? 59 + leap then 1
  else if d <? 90 + leap then 2
  else if d <? 120 + leap then 3
  else if d <? 151 + leap then 4
  else if d <? 181 + leap then 5
  else if d <? 212 + leap then 6
  else if d <? 243 + leap then 7
  else if d <? 273 + leap then 8
  else if d <? 304 + leap then 9
  else if d <? 334 + leap then 10
  else 11.

Definition DateFromTime (t : Z) : Z :=
  DayWithinYear t - monthStart (InLeapYear (YearFromTime t)) (MonthFromTime t) + 1.

(** 0 is Sunday. *)
Definition WeekDay (t : Z) : Z := (Day t + 4) mod 7.

Definition MakeTime (hour min sec ms : Z) : Z :=
  hour * 3600000 + min * 60000 + sec * 1000 + ms.

Definition MakeDay (year month date : Z) : Z :=
  let ym := year + month / 12 in
  let mn := month mod 12 in
  DayFromYear ym + monthStart (InLeapYear ym) mn + date - 1.

Definition MakeDate (day time : Z) : Z := day * msPerDay + time.

(** Beyond 8.64e15 ms on either side of the epoch there is no time value. *)
Definition TimeClip (time : Z) : option Z :=
  if Z.abs time <=? 8640000000000000 then Some time else None.

(** LocalTZA(t, isUTC) of the host, in milliseconds. *)
Definition time_zone := Z -> bool -> Z.

Definition LocalTime (tz : time_zone) (t : Z) : Z := t + tz t true.
Definition UTC (tz : time_zone) (t : Z) : Z := t - tz t false.

(** A Date object is its time value, [None] for NaN (an Invalid Date); a
    number read off a Date is [None] for NaN. *)
Definition getFullYear (tz : time_zone) (d : option Z) : option Z :=
  option_map (fun t => YearFromTime (LocalTime tz t)) d.
Definition getMonth (tz : time_zone) (d : option Z) : option Z :=
  option_map (fun t => MonthFromTime (LocalTime tz t)) d.
Definition getDate (tz : time_zone) (d : option Z) : option Z :=
  option_map (fun t => DateFromTime (LocalTime tz t)) d.
Definition getDay (tz : time_zone) (d : option Z) : option Z :=
  option_map (fun t => WeekDay (LocalTime tz t)) d.
Definition getTime (d : option Z) : option Z := d.

(** [a + b], [a - b] and [a % b] on numbers that are whole or NaN; the
    remainder has the sign of the dividend. *)
Definition num_add (a b : option Z) : option Z :=
  match a, b with
  | Some x, Some y => Some (x + y)
  | _, _ => None
  end.

Definition num_sub (a b : option Z) : option Z :=
  match a, b with
  | Some x, Some y => Some (x - y)
  | _, _ => None
  end.

Definition num_rem (a : option Z) (b : Z) : option Z :=
  match a with
  | Some x => if b =? 0 then None else Some (Z.rem x b)
  | None => None
  end.

(** [a <= b], false when [a] is NaN. *)
Definition num_leb (a : option Z) (b : Z) : bool :=
  match a with
  | Some x => x <=? b
  | None => false
  end.

(** Date.prototype.setDate: the local time with its date replaced ... *)
Definition setDate_local (t date : Z) : Z :=
  MakeDate (MakeDay (YearFromTime t) (MonthFromTime t) date) (TimeWithinDay t).

(** ... taken back to UTC and clipped. A setter returns the new time value
    of the Date it is called on. *)
Definition setDate (tz : time_zone) (d date : option Z) : option Z :=
  match d, date with
  | Some tv, Some dt => TimeClip (UTC tz (setDate_local (LocalTime tz tv) dt))
  | _, _ => None
  end.

(** Date.prototype.setHours with its four arguments. *)
Definition setHours_local (t hour min sec ms : Z) : Z :=
  MakeDate (Day t) (MakeTime hour min sec ms).

Definition setHours (tz : time_zone) (d : option Z) (hour min sec ms : Z) : option Z :=
  match d with
  | Some tv => TimeClip (UTC tz (setHours_local (LocalTime tz tv) hour min sec ms))
  | None => None
  end.

(** new Date(year, month, date, hours, minutes, seconds, ms): the local time
    the arguments spell, a year from 0 to 99 standing for 1900 + year ... *)
Definition Date_local (year month date hours minutes seconds ms : Z) : Z :=
  let yr := if (0 <=? year) && (year <=? 99) then 1900 + year else year in
  MakeDate (MakeDay yr month date) (MakeTime hours minutes seconds ms).

(** ... taken to UTC and clipped. *)
Definition Date_of (tz : time_zone) (year month : option Z)
    (date hours minutes seconds ms : Z) : option Z :=
  match year, month with
  | Some y, Some m => TimeClip (UTC tz (Date_local y m date hours minutes seconds ms))
  | _, _ => None
  end.

(** The number of days of month [m] (0 to 11) of year [y]. *)
Definition daysInMonth (y m : Z) : Z :=
  monthStart (InLeapYear y) (m + 1) - monthStart (InLeapYear y) m.


End JsDate.
Import JsDate.

(* ===================================================================== *)
(** ** frontend/src/types/index.ts: PayPeriodCalculator *)
(* ===================================================================== *)

Module PayPeriodCalculator.

Inductive period_label := Weekly | BiMonthly | Monthly.

Record PayPeriod := mkPeriod {
  startDate : option Z;
  endDate : option Z;
  description : period_label
}.

Definition getWeeklyPeriod (tz : time_zone) (date : option Z) : PayPeriod :=
  let startOfWeek :=
    setHours tz (setDate tz date (num_sub (getDate tz date) (getDay tz date))) 0 0 0 0 in
  let endOfWeek :=
    setHours tz (setDate tz startOfWeek (num_add (getDate tz startOfWeek) (Some 6)))
             23 59 59 999 in
  mkPeriod startOfWeek endOfWeek Weekly.

Definition getBiMonthlyPeriod (tz : time_zone) (date : option Z) : PayPeriod :=
  let currentDay := getDate tz date in
  let year := getFullYear tz date in
  let month := getMonth tz date in
  if num_leb currentDay 15 then
    mkPeriod (Date_of tz year month 1 0 0 0 0) (Date_of tz year month 15 23 59 59 999)
             BiMonthly
  else
    mkPeriod (Date_of tz year month 16 0 0 0 0)
             (Date_of tz year (num_add month (Some 1)) 0 23 59 59 999) BiMonthly.

Definition getMonthlyPeriod (tz : time_zone) (date : option Z) : PayPeriod :=
  let year := getFullYear tz date in
  let month := getMonth tz date in
  mkPeriod (Date_of tz year month 1 0 0 0 0)
           (Date_of tz year (num_add month (Some 1)) 0 23 59 59 999) Monthly.

End PayPeriodCalculator.

(* ===================================================================== *)
(** ** backend/routes/admin.js: GET /payroll/period-hours *)
(* ===================================================================== *)

Module Payroll.

(** users.pay_schedule as the switch of the handler sees it; [S_other] is
    'bi-weekly' and every value that takes the default branch. *)
Inductive schedule := S_weekly | S_monthly | S_other.

(** The period of one user: entries with periodStart <= clock_in < periodEnd
    are summed. *)
Record period := mkServerPeriod {
  periodStart : option Z;
  periodEnd : option Z;
  overtimeThreshold : float
}.

(** [now] is [new Date()], the time of the request; [tz] is the time zone of
    the server. *)
Definition weekStart (tz : time_zone) (now : Z) : option Z :=
  let day := getDay tz (Some now) in
  let diffToMonday := num_rem (num_add day (Some 6)) 7 in
  setHours tz (setDate tz (Some now) (num_sub (getDate tz (Some now)) diffToMonday))
           0 0 0 0.

Definition nextWeekStart (tz : time_zone) (now : Z) : option Z :=
  setDate tz (weekStart tz now) (num_add (getDate tz (weekStart tz now)) (Some 7)).

Definition prevWeekStart (tz : time_zone) (now : Z) : option Z :=
  setDate tz (weekStart tz now) (num_sub (getDate tz (weekStart tz now)) (Some 7)).

Definition monthStartDate (tz : time_zone) (now : Z) : option Z :=
  Date_of tz (getFullYear tz (Some now)) (getMonth tz (Some now)) 1 0 0 0 0.

Definition nextMonthStart (tz : time_zone) (now : Z) : option Z :=
  Date_of tz (getFullYear tz (Some now)) (num_add (getMonth tz (Some now)) (Some 1))
          1 0 0 0 0.

Definition period_of (tz : time_zone) (s : schedule) (now : Z) : period :=
  match s with
  | S_weekly => mkServerPeriod (weekStart tz now) (nextWeekStart tz now) 40%float
  | S_monthly => mkServerPeriod (monthStartDate tz now) (nextMonthStart tz now) 160%float
  | S_other => mkServerPeriod (prevWeekStart tz now) (nextWeekStart tz now) 80%float
  end.

(** Math.min and Math.max on two numbers (ECMA-262): NaN when an argument
    is NaN, and -0 is below +0. *)
Definition Math_min (a b : float) : float :=
  if (is_nan a || is_nan b)%bool then nan
  else if ltb a b then a
  else if ltb b a then b
  else if get_sign a then a else b.

Definition Math_max (a b : float) : float :=
  if (is_nan a || is_nan b)%bool then nan
  else if ltb a b then b
  else if ltb b a then a
  else if get_sign a then b else a.

(** [x || 0] on a number: NaN and the zeros are falsy. *)
Definition or_zero (x : float) : float :=
  if (is_nan x || is_zero x)%bool then 0%float else x.

(** The figures of one user before they are rounded to two decimals for the
    response. *)
Record payroll_row := mkRow {
  hours : float;
  regularHours : float;
  overtimeHours : float;
  estGross : float;
  hourlyRate : float;
  overtimeEnabled : bool
}.

(** The body of the loop after the hours query: [totalHours] is the parsed
    sum, [hourly_rate] the parsed users.hourly_rate, [overtime_enabled] the
    truthiness of users.overtime_enabled. *)
Definition computePayroll (totalHours : float) (overtime_enabled : bool)
    (hourly_rate : float) (threshold : float) : payroll_row :=
  let regular := if overtime_enabled then Math_min totalHours threshold else totalHours in
  let overtime :=
    if overtime_enabled then Math_max 0%float (totalHours - threshold)%float
    else 0%float in
  let rate := or_zero hourly_rate in
  let overtimeRateMultiplier := 1.5%float in
  let gross := ((regular * rate) + (overtime * rate * overtimeRateMultiplier))%float in
  mkRow totalHours regular overtime gross rate overtime_enabled.

End Payroll.

(* ===================================================================== *)
(** ** Vocabulary of the statements and the scenarios they are run on *)
(* ===================================================================== *)

(** The audit row a response announces: the entry it is about and the action
    tag, for the responses of the operations that write time_entry_audit. *)
Definition audit_key (r : response) : option (Z * action) :=
  match r with
  | R_created e => Some (v_id e, A_create)
  | R_updated _ e => Some (v_id e, A_update)
  | R_flagged e => Some (v_id e, A_fallback_flag)
  | R_reviewed e =>
      Some (rv_id e, if status_is Approved (rv_approvalStatus e) then A_approve else A_deny)
  | _ => None
  end.

Definition key_of (a : audit_row) : Z * action := (au_time_entry_id a, au_action a).

Definition option_list {A : Type} (o : option A) : list A :=
  match o with
  | Some a => [a]
  | None => []
  end.

(** What a request did to time_entry_audit: the rows it appended are exactly
    the row its response announces, if any. *)
Definition audited_once (d : db) (res : response * db) : Prop :=
  exists l, audit (snd res) = audit d ++ l
            /\ map key_of l = option_list (audit_key (fst res)).

(** The schedules of two requests of [n] and [m] statements: every way to
    merge the statements of the first ([false]) with those of the second
    ([true]), each request keeping its own order. *)
Fixpoint interleavings (n m : nat) : list (list bool) :=
  match n with
  | O => [repeat true m]
  | S n' =>
      (fix merge (m : nat) : list (list bool) :=
         match m with
         | O => [repeat false n]
         | S m' => map (cons false) (interleavings n' m) ++ map (cons true) (merge m')
         end) m
  end.

(** The request has been answered 200 with the reviewed entry. *)
Definition reviewed (pc : approval_pc) : bool :=
  match pc with
  | P_done (R_reviewed _) => true
  | _ => false
  end.

(** The request has been refused with 'already been reviewed'. *)
Definition refused_as_reviewed (pc : approval_pc) : bool :=
  match pc with
  | P_done R_already_reviewed => true
  | _ => false
  end.

(** No subject has more than one entry in progress. *)
Definition single_active (d : db) : Prop :=
  forall uid, (List.length (active_of uid d) <= 1)%nat.

(** The Date [d] is valid and reads year-month-date on the local calendar
    ([month] from 0), [ms] milliseconds into its day. *)
Definition at_civil (tz : time_zone) (d : option Z) (year month date ms : Z) : Prop :=
  getFullYear tz d = Some year /\ getMonth tz d = Some month /\ getDate tz d = Some date
  /\ option_map (fun t => TimeWithinDay (LocalTime tz t)) d = Some ms.

(** The offset of the zone is [off], less than a day, at every time, UTC or
    local, within 33 days of [date]: no transition of the zone is near. *)
Definition steady (tz : time_zone) (off date : Z) : Prop :=
  Z.abs off < msPerDay
  /\ forall t isUTC, Z.abs (t - date) <= 33 * msPerDay -> tz t isUTC = off.

Module Scenario.

(** Subject 1 submits the manual entry [100, 200] at instant 1000. *)
Definition one_pending : db :=
  snd (post_entry 1000 1 (Text (Some 100)) (Text (Some 200)) empty_db).

(** The same subject submits the same interval again at instant 2000. *)
Definition two_pending : response * db :=
  post_entry 2000 1 (Text (Some 100)) (Text (Some 200)) one_pending.

(** Subject 1 clocks in at 100 and out at 200: one automatic, completed entry. *)
Definition one_automatic : db :=
  snd (clock_out 200 1 (snd (clock_in 100 1 empty_db))).

(** ... and clocks in again at 300: entry 2 is in progress. *)
Definition clocked_in_again : db := snd (clock_in 300 1 one_automatic).

(** ... and then edits entry 1, sending its clock-in and no clock-out. *)
Definition reopened : response * db :=
  put_entry no_faults 400 1 1 (Text (Some 100)) Falsy clocked_in_again.

(** An update of the automatic entry 1 whose clockOut is the number 150. *)
Definition flagged : response * db :=
  put_entry no_faults 400 1 1 (Text (Some 100)) (NonString (Some 150)) one_automatic.

(** A manual entry of 25 hours, sent straight to POST /entry. *)
Definition long_entry : response * db :=
  post_entry 1000 1 (Text (Some 0)) (Text (Some 90000000)) empty_db.

(** The manual entry [100, 200] updated to last 25 hours. *)
Definition long_update : response * db :=
  put_entry no_faults 2000 1 1 (Text (Some 100)) (Text (Some 90000100)) one_pending.

(** The manual entry [100, 200] sent again, unchanged, once [two_pending]
    has put a second entry on the same interval. *)
Definition resent_with_twin : response * db :=
  put_entry no_faults 3000 1 1 (Text (Some 100)) (Text (Some 200)) (snd two_pending).

(** Subject 1 submits, at instant 1000, the manual entry [5000, 6000] that
    lies ahead, reopens it at 2000 by an update that sends the clock-in
    alone, and clocks out at 3000: entry 1 is completed, manual and pending,
    and ends before it starts. *)
Definition ends_before_start : db :=
  snd (clock_out 3000 1
         (snd (put_entry no_faults 2000 1 1 (Text (Some 5000)) Falsy
                 (snd (post_entry 1000 1 (Text (Some 5000)) (Text (Some 6000)) empty_db))))).

(** ... and sends the stored instants of entry 1 again. *)
Definition resent_reversed : response * db :=
  put_entry no_faults 4000 1 1 (Text (Some 5000)) (Text (Some 3000)) ends_before_start.

(** Two admins decide entry 1 of [one_pending]. *)
Definition approve_by_7 : approval_request := mkApproval 1 (Some Approved) None 7.
Definition deny_by_8 : approval_request := mkApproval 1 (Some Denied) None 8.

(** Entry 1 is denied, the subject submits the interval again (entry 2) and
    then moves the end of entry 2 to 250. *)
Definition denied_then_resubmitted : db :=
  snd (post_entry 6000 1 (Text (Some 100)) (Text (Some 200))
         (snd (patch_approval 5000 deny_by_8 one_pending))).

Definition edit_next_to_denied : response * db :=
  put_entry no_faults 7000 1 2 (Text (Some 100)) (Text (Some 250)) denied_then_resubmitted.

(** Both SELECTs run before either UPDATE. *)
Definition interleaved : list bool := [false; true; false; false; true; true].

(** The first request finishes before the second starts. *)
Definition sequential : list bool := [false; false; false; true; true; true].

(** Time zones: UTC, and America/Santiago around the start of its summer
    time in 2025, UTC-4 until Sunday 2025-09-07 04:00 UTC, which is local
    midnight, and UTC-3 from then on, so that the local times from 00:00 to
    01:00 of that Sunday do not exist. *)
Definition utc : time_zone := fun _ _ => 0.

Definition santiago : time_zone := fun t isUTC =>
  if isUTC then
    if t <? MakeDate (MakeDay 2025 8 7) (MakeTime 4 0 0 0) then -4 * 3600000
    else -3 * 3600000
  else
    if t <? MakeDate (MakeDay 2025 8 7) (MakeTime 1 0 0 0) then -4 * 3600000
    else -3 * 3600000.

(** Wednesday 2025-03-12, 10:00 UTC. *)
Definition wednesday : Z := MakeDate (MakeDay 2025 2 12) (MakeTime 10 0 0 0).

(** 2024-02-14, 10:00 UTC. *)
Definition leap_february : Z := MakeDate (MakeDay 2024 1 14) (MakeTime 10 0 0 0).

(** Noon UTC of June 10th of the year 50. *)
Definition year_fifty : Z := MakeDate (MakeDay 50 5 10) (MakeTime 12 0 0 0).

(** Wednesday 2025-09-10, 10:00 in Santiago (13:00 UTC). *)
Definition santiago_wednesday : Z := MakeDate (MakeDay 2025 8 10) (MakeTime 13 0 0 0).

(** Wednesday 2025-11-12, 10:00 in Santiago (13:00 UTC), two months after
    the transition. *)
Definition santiago_november : Z := MakeDate (MakeDay 2025 10 12) (MakeTime 13 0 0 0).

(** The last time value: September 13th of the year 275760, 00:00 UTC. *)
Definition last_instant : Z := 8640000000000000.

End Scenario.

(* ===================================================================== *)
(** ** Proof automation *)
(* ===================================================================== *)

(** Case analysis on the comparisons of [MonthFromTime]. *)
Ltac month_cases :=
  repeat match goal with
         | |- context [if ?a <? ?b then _ else _] =>
             destruct (Z.ltb_spec a b)
         end.

(** Evaluation of [monthStart] at the month a case has fixed. *)
Ltac month_eval :=
  repeat match goal with
         | |- context [monthStart ?l (?c + 1)] =>
             let v := eval compute in (c + 1) in change (c + 1) with v
         end;
  unfold monthStart; cbv beta iota.

(* ===================================================================== *)
(** * Properties *)
(* ===================================================================== *)

(** ** Queries on a table *)

Section TableLemmas.
Context {A : Type}.

Lemma filter_nil_iff (p : A -> bool) (l : list A) :
  filter p l = [] <-> forall x, In x l -> p x = false.
Proof.
  induction l as [| a l IH]; simpl.
  - split; [intros _ x [] | reflexivity].
  - destruct (p a) eqn:Pa.
    + split; [discriminate |]. intros H. specialize (H a (or_introl eq_refl)). congruence.
    + rewrite IH. split.
      * intros H x [<- | Hx]; auto.
      * intros H x Hx. apply H. now right.
Qed.

Lemma filter_cons_iff (p : A -> bool) (l : list A) :
  (exists a r, filter p l = a :: r) <-> exists x, In x l /\ p x = true.
Proof.
  split.
  - intros (a & r & E). exists a. apply filter_In. rewrite E. now left.
  - intros (x & Hx & Px).
    destruct (filter p l) as [| a r] eqn:E.
    + apply filter_nil_iff with (x := x) in E; [congruence | assumption].
    + now exists a, r.
Qed.

Lemma filter_head (p : A -> bool) (l : list A) a r :
  filter p l = a :: r -> In a l /\ p a = true.
Proof. intros E. apply filter_In. rewrite E. now left. Qed.
End TableLemmas.

Lemma returning_cons p f rows e :
  In e rows -> p e = true -> exists a r, returning p f rows = a :: r.
Proof.
  intros He Hp. unfold returning.
  destruct (proj2 (filter_cons_iff p rows) (ex_intro _ e (conj He Hp))) as (a & r & ->).
  now exists (f a), (map f r).
Qed.

Lemma returning_head p f rows a r :
  returning p f rows = a :: r -> exists e, In e rows /\ p e = true /\ a = f e.
Proof.
  unfold returning. destruct (filter p rows) as [| e l] eqn:E; [discriminate |].
  intros H. inversion H. exists e. apply filter_head in E. tauto.
Qed.

(** ** The stages of PUT /entry/:id *)

Lemma put_entry_try_both f now userId entryId cin cout d existing rest :
  f Q_entry_check = false ->
  select_owned entryId userId d = existing :: rest ->
  put_entry_try f now userId entryId (Text (Some cin)) (Text (Some cout)) d
  = if cout <=? cin then Respond R_clock_order d
    else put_entry_checked f now userId entryId existing cin (Some cout) d.
Proof. intros Hf Hs. unfold put_entry_try. now rewrite Hf, Hs. Qed.

Lemma put_entry_try_open f now userId entryId cin clockOut d existing rest :
  f Q_entry_check = false ->
  select_owned entryId userId d = existing :: rest ->
  and_trim clockOut = Some false ->
  put_entry_try f now userId entryId (Text (Some cin)) clockOut d
  = put_entry_checked f now userId entryId existing cin None d.
Proof. intros Hf Hs Ht. unfold put_entry_try. now rewrite Hf, Hs, Ht. Qed.

Lemma put_entry_apply_response f userId entryId existing cin cout d r d' :
  put_entry_apply f userId entryId existing cin cout d = Respond r d' ->
  (exists v, r = R_no_changes v) \/ (exists b v, r = R_updated b v).
Proof.
  unfold put_entry_apply.
  repeat match goal with
         | |- context [if ?b then _ else _] => destruct b
         | |- context [match ?l with [] => _ | _ :: _ => _ end] => destruct l
         end; intros H; inversion H; eauto.
Qed.

Lemma put_entry_checked_overlap f now userId entryId existing cin cout d :
  f Q_overlap = false ->
  (exists e, In e (entries d)
     /\ match cout with
        | Some c => overlap_update now userId entryId cin c e
        | None => overlap_update_open now userId entryId cin e
        end = true) ->
  put_entry_checked f now userId entryId existing cin cout d = Respond R_overlap d.
Proof.
  intros Hf H. unfold put_entry_checked. rewrite Hf.
  assert (N : exists a r, overlapCheck now userId entryId cin cout d = a :: r).
  { unfold overlapCheck. destruct cout; apply filter_cons_iff; exact H. }
  destruct N as (a & r & ->). reflexivity.
Qed.

Lemma put_entry_checked_overlap_inv f now userId entryId existing cin cout d d' :
  put_entry_checked f now userId entryId existing cin cout d = Respond R_overlap d' ->
  exists e, In e (entries d)
     /\ match cout with
        | Some c => overlap_update now userId entryId cin c e
        | None => overlap_update_open now userId entryId cin e
        end = true.
Proof.
  unfold put_entry_checked. destruct (f Q_overlap); [discriminate |].
  destruct (overlapCheck now userId entryId cin cout d) as [| a r] eqn:E.
  - destruct (is_null (te_clock_out existing)); [discriminate |].
    intros H. apply put_entry_apply_response in H.
    destruct H as [(v & H) | (b & v & H)]; discriminate.
  - intros _. exists a. unfold overlapCheck in E.
    destruct cout; apply filter_head in E; exact E.
Qed.

Lemma put_entry_respond f now userId entryId clockIn clockOut d r d' :
  put_entry_try f now userId entryId clockIn clockOut d = Respond r d' ->
  put_entry f now userId entryId clockIn clockOut d = (r, d').
Proof. intros H. unfold put_entry. now rewrite H. Qed.

Lemma fallback_flag_response f userId entryId d :
  fst (fallback_flag f userId entryId d) = R_fallback_fail
  \/ fst (fallback_flag f userId entryId d) = R_fallback_not_found
  \/ exists v, fst (fallback_flag f userId entryId d) = R_flagged v.
Proof.
  unfold fallback_flag.
  repeat match goal with
         | |- context [if ?b then _ else _] => destruct b
         | |- context [match ?l with [] => _ | _ :: _ => _ end] => destruct l
         end; cbn [fst]; eauto.
Qed.

(** ** Overlap validation (POST /entry and PUT /entry/:id) *)

Lemma post_entry_overlap_iff now userId cin cout d :
  cin < cout ->
  fst (post_entry now userId (Text (Some cin)) (Text (Some cout)) d) = R_overlap
  <-> exists e, In e (entries d) /\ overlap_create now userId cin cout e = true.
Proof.
  intros Hlt. unfold post_entry. cbn [new_Date].
  destruct (Z.leb_spec cout cin) as [Hle | _]; [lia |].
  rewrite <- filter_cons_iff.
  destruct (filter _ (entries d)) as [| a r] eqn:E; cbn [fst].
  - split; [discriminate | intros (a & r & H); discriminate].
  - split; [now exists a, r | reflexivity].
Qed.

Lemma overlap_create_iff now userId cin cout e :
  overlap_create now userId cin cout e = true
  <-> te_user_id e = userId
      /\ (te_approval_status e = None \/ te_approval_status e = Some Approved)
      /\ intervals_meet now cin cout e = true.
Proof.
  unfold overlap_create. rewrite !andb_true_iff, orb_true_iff, Z.eqb_eq.
  assert (S : is_null (te_approval_status e) = true \/
              status_is Approved (te_approval_status e) = true
              <-> te_approval_status e = None \/ te_approval_status e = Some Approved).
  { destruct (te_approval_status e) as [[]|]; simpl; split; intros [H|H];
      try discriminate; auto. }
  rewrite S. tauto.
Qed.

Lemma overlap_update_iff now userId entryId cin cout e :
  overlap_update now userId entryId cin cout e = true
  <-> te_user_id e = userId /\ te_id e <> entryId /\ intervals_meet now cin cout e = true.
Proof.
  unfold overlap_update.
  rewrite !andb_true_iff, negb_true_iff, Z.eqb_eq, Z.eqb_neq. tauto.
Qed.




(** On the update path a denied entry blocks as any other does: the query
    has no test on approval_status. *)
Lemma update_blocked_by_denied_entry :
  (exists e, In e (entries Scenario.denied_then_resubmitted) /\ te_id e = 1
     /\ te_approval_status e = Some Denied)
  /\ fst Scenario.edit_next_to_denied = R_overlap.
Proof.
  split; [| reflexivity].
  eexists. split; [left; reflexivity |]. split; reflexivity.
Qed.

(** ** The audit trail *)

(** Each handler that writes time_entry_audit appends the row its response
    announces and no other. *)
Lemma audited_none d r d' :
  audit d' = audit d -> audit_key r = None -> audited_once d (r, d').
Proof.
  intros Ha Hk. exists []. cbn [fst snd]. rewrite Hk, Ha, app_nil_r. auto.
Qed.

Lemma audited_one d r d' a :
  audit d' = audit d ++ [a] -> audit_key r = Some (key_of a) -> audited_once d (r, d').
Proof.
  intros Ha Hk. exists [a]. cbn [fst snd]. rewrite Hk, Ha. auto.
Qed.

Lemma post_entry_audited now userId clockIn clockOut d :
  audited_once d (post_entry now userId clockIn clockOut d).
Proof.
  unfold post_entry.
  destruct clockIn as [| | t | t], clockOut as [| | t' | t'];
    try (apply audited_none; reflexivity).
  all: cbn [new_Date];
    try (destruct t; [| apply audited_none; reflexivity]);
    try (destruct t'; [| apply audited_none; reflexivity]);
    try (apply audited_none; reflexivity).
  all: match goal with |- context [if ?b then _ else _] => destruct b end;
    try (apply audited_none; reflexivity).
  all: match goal with |- context [filter ?p ?l] => destruct (filter p l) end;
    try (apply audited_none; reflexivity).
  all: eapply audited_one; reflexivity.
Qed.

Lemma put_entry_apply_audited f userId entryId existing cin cout d :
  In existing (entries d) -> te_id existing = entryId ->
  match put_entry_apply f userId entryId existing cin cout d with
  | Respond r d' => audited_once d (r, d')
  | Throw d' => audit d' = audit d
  end.
Proof.
  intros Hin Hid. unfold put_entry_apply.
  destruct (_ && _ && _); [apply audited_none; reflexivity |].
  destruct (f Q_update); [reflexivity |].
  destruct (f Q_audit); [reflexivity |].
  match goal with |- context [returning ?p ?u ?l] =>
    destruct (returning_cons p u l existing Hin) as (a & r & E);
      [now apply Z.eqb_eq | rewrite E; pose proof (returning_head p u l a r E) as (e & _ & He & ->)] end.
  apply Z.eqb_eq in He.
  eapply audited_one; [reflexivity |]. cbn. now rewrite He.
Qed.

Lemma put_entry_checked_audited f now userId entryId existing cin cout d :
  In existing (entries d) -> te_id existing = entryId ->
  match put_entry_checked f now userId entryId existing cin cout d with
  | Respond r d' => audited_once d (r, d')
  | Throw d' => audit d' = audit d
  end.
Proof.
  intros Hin Hid. unfold put_entry_checked.
  destruct (f Q_overlap); [reflexivity |].
  destruct (overlapCheck _ _ _ _ _ _); [| apply audited_none; reflexivity].
  destruct (is_null _); [apply audited_none; reflexivity |].
  now apply put_entry_apply_audited.
Qed.

Lemma put_entry_try_audited f now userId entryId clockIn clockOut d :
  match put_entry_try f now userId entryId clockIn clockOut d with
  | Respond r d' => audited_once d (r, d')
  | Throw d' => audit d' = audit d
  end.
Proof.
  unfold put_entry_try.
  destruct (f Q_entry_check); [reflexivity |].
  destruct (select_owned entryId userId d) as [| existing rest] eqn:Hs;
    [apply audited_none; reflexivity |].
  apply filter_head in Hs. destruct Hs as [Hin Hp].
  apply andb_true_iff in Hp. destruct Hp as [Hid _]. apply Z.eqb_eq in Hid.
  destruct clockIn as [| | t | t]; try (apply audited_none; reflexivity).
  all: destruct (and_trim clockOut) as [[|] |]; try reflexivity.
  all: cbn [new_Date]; try (apply audited_none; reflexivity).
  all: try (destruct t; [| apply audited_none; reflexivity]).
  all: try (destruct (new_Date clockOut); [| apply audited_none; reflexivity]).
  all: try (match goal with |- context [if ?b then _ else _] => destruct b end;
            [apply audited_none; reflexivity |]).
  all: now apply put_entry_checked_audited.
Qed.

Lemma fallback_flag_audited f userId entryId d :
  audited_once d (fallback_flag f userId entryId d).
Proof.
  unfold fallback_flag.
  destruct (f Q_verify); [apply audited_none; reflexivity |].
  destruct (select_owned entryId userId d) as [| verify rest];
    [apply audited_none; reflexivity |].
  destruct (f Q_flag); [apply audited_none; reflexivity |].
  destruct (returning _ _ _) as [| flaggedEntry r]; [apply audited_none; reflexivity |].
  destruct (f Q_flag_audit); [apply audited_none; reflexivity |].
  eapply audited_one; reflexivity.
Qed.

Lemma audited_once_from d d0 res :
  audit d0 = audit d -> audited_once d0 res -> audited_once d res.
Proof. intros E (l & H1 & H2). exists l. now rewrite <- E. Qed.

Lemma put_entry_audited f now userId entryId clockIn clockOut d :
  audited_once d (put_entry f now userId entryId clockIn clockOut d).
Proof.
  unfold put_entry.
  pose proof (put_entry_try_audited f now userId entryId clockIn clockOut d) as H.
  destruct (put_entry_try f now userId entryId clockIn clockOut d) as [r d' | d'].
  - exact H.
  - eapply audited_once_from; [exact H | apply fallback_flag_audited].
Qed.

Lemma patch_approval_audited now rq d :
  audited_once d (patch_approval now rq d).
Proof.
  unfold patch_approval.
  assert (C : forall s,
    audited_once d
      (let '(pc1, d1) := approval_check s rq d in
       let '(pc2, d2) := approval_step now rq pc1 d1 in
       let '(pc3, d3) := approval_step now rq pc2 d2 in
       match pc3 with P_done r => (r, d3) | _ => (R_internal_error, d3) end)
    \/ s = Pending).
  { intros s. destruct s; [now right | left | left].
    all: unfold approval_check.
    all: destruct (select_manual (ar_id rq) d) as [| row rest];
      [apply audited_none; reflexivity |].
    all: destruct (status_is Pending (te_approval_status row));
      [| apply audited_none; reflexivity].
    all: cbn [approval_step].
    all: destruct (returning _ _ _) as [| entry r] eqn:E;
      [apply audited_none; reflexivity |].
    all: apply returning_head in E; destruct E as (e & _ & _ & ->).
    all: cbn [approval_step]; eapply audited_one; reflexivity. }
  cbn [approval_step].
  destruct (ar_status rq) as [[| |] |]; try (apply audited_none; reflexivity).
  - destruct (C Approved) as [H | H]; [exact H | discriminate].
  - destruct (C Denied) as [H | H]; [exact H | discriminate].
Qed.

Lemma clock_in_audit now userId d : audit (snd (clock_in now userId d)) = audit d.
Proof. unfold clock_in. now destruct (active_of userId d). Qed.

Lemma clock_out_audit now userId d : audit (snd (clock_out now userId d)) = audit d.
Proof.
  unfold clock_out. destruct (active_of userId d); [reflexivity |].
  now destruct (returning _ _ _).
Qed.

Lemma audited_once_length d res :
  audited_once d res ->
  List.length (audit (snd res))
  = (List.length (audit d) + List.length (option_list (audit_key (fst res))))%nat.
Proof.
  intros (l & -> & H). rewrite List.length_app. f_equal.
  rewrite <- H. now rewrite List.length_map.
Qed.

(** C2, as amended. A manual create, an update that writes the entry, an
    approval or denial and a fallback flag append exactly one audit row, which
    carries the id of the entry and the action tag of the operation; every
    other outcome of these requests appends none. Clock-in and clock-out
    never write to the audit table. *)
Theorem audit_rows_per_operation :
  (forall now userId clockIn clockOut d,
     audited_once d (post_entry now userId clockIn clockOut d))
  /\ (forall f now userId entryId clockIn clockOut d,
        audited_once d (put_entry f now userId entryId clockIn clockOut d))
  /\ (forall now rq d, audited_once d (patch_approval now rq d))
  /\ (forall now userId d, audit (snd (clock_in now userId d)) = audit d)
  /\ (forall now userId d, audit (snd (clock_out now userId d)) = audit d).
Proof.
  split; [| split; [| split; [| split]]].
  - exact post_entry_audited.
  - exact put_entry_audited.
  - exact patch_approval_audited.
  - exact clock_in_audit.
  - exact clock_out_audit.
Qed.

(** C2, counterexample. The first clock-in and the clock-out that follows
    succeed and leave the audit table empty. *)
Lemma clock_in_writes_no_audit :
  succeeded (fst (clock_in 100 1 empty_db)) = true
  /\ audit (snd (clock_in 100 1 empty_db)) = []
  /\ succeeded (fst (clock_out 200 1 (snd (clock_in 100 1 empty_db)))) = true
  /\ audit Scenario.one_automatic = [].
Proof. repeat split. Qed.

(** ** The fallback flag of PUT /entry/:id *)

Lemma flag_for_review_fields e :
  te_approval_status (flag_for_review e) = Some Pending
  /\ te_is_manual (flag_for_review e) = Some (coalesce (te_is_manual e) true)
  /\ te_id (flag_for_review e) = te_id e.
Proof. repeat split. Qed.

(** Every row the fallback UPDATE reaches ends pending, and keeps the
    is_manual it had unless that was null. *)
Lemma fallback_flag_rows f userId entryId d v e :
  fst (fallback_flag f userId entryId d) = R_flagged v ->
  In e (entries (snd (fallback_flag f userId entryId d))) -> te_id e = entryId ->
  te_approval_status e = Some Pending
  /\ exists e0, In e0 (entries d) /\ te_id e0 = entryId
       /\ te_is_manual e = Some (coalesce (te_is_manual e0) true).
Proof.
  unfold fallback_flag.
  destruct (f Q_verify); [discriminate |].
  destruct (select_owned entryId userId d); [discriminate |].
  destruct (f Q_flag); [discriminate |].
  destruct (returning _ _ _); [discriminate |].
  destruct (f Q_flag_audit); [discriminate |].
  cbn [fst snd insert_audit set_entries entries]. intros _ Hin Hid.
  unfold update_where in Hin. apply in_map_iff in Hin. destruct Hin as (e0 & He & Hin0).
  destruct (te_id e0 =? entryId) eqn:E.
  - subst e. split; [reflexivity |]. exists e0. apply Z.eqb_eq in E. auto.
  - subst e. apply Z.eqb_neq in E. contradiction.
Qed.

(** C3, the failing run. Entry 1 was created by clock-in and clock-out
    (is_manual = false). An update whose clockOut is a number makes
    [clockOut.trim()] throw, the catch block flags the entry, and the response
    reports isManual: true; the row is pending but still has
    is_manual = false. *)
Theorem fallback_flag_keeps_automatic :
  (exists e, entries Scenario.one_automatic = [e] /\ te_id e = 1
     /\ te_is_manual e = Some false)
  /\ (exists v, fst Scenario.flagged = R_flagged v /\ v_isManual v = Some true
        /\ v_approvalStatus v = Some Pending)
  /\ (exists e, entries (snd Scenario.flagged) = [e] /\ te_id e = 1
        /\ te_approval_status e = Some Pending
        /\ te_is_manual e = Some false)
  /\ select_manual 1 (snd Scenario.flagged) = [].
Proof.
  split; [| split; [| split]].
  - eexists. repeat split.
  - eexists. repeat split.
  - eexists. repeat split.
  - reflexivity.
Qed.

(** ** The 24-hour limit *)

(** The form refuses an interval of more than 24 hours. *)
Lemma validateForm_rejects_long cin cout :
  86400000 < cout - cin -> TimeEntryModal.validateForm (Some cin) (Some cout) = false.
Proof.
  intros H. unfold TimeEntryModal.validateForm, TimeEntryModal.form_check.
  cbn [TimeEntryModal.err_clockIn TimeEntryModal.err_clockOut is_null negb andb].
  destruct (Z.leb_spec cout cin); [reflexivity |].
  destruct (Z.ltb_spec 86400000 (cout - cin)); [reflexivity | lia].
Qed.

(** The create handler has no test on the duration: with no approved or
    null-status entry of the subject in the way, any ordered interval is
    stored. *)
Lemma post_entry_any_duration now userId cin cout d :
  cin < cout ->
  filter (overlap_create now userId cin cout) (entries d) = [] ->
  succeeded (fst (post_entry now userId (Text (Some cin)) (Text (Some cout)) d)) = true
  /\ exists e, entries (snd (post_entry now userId (Text (Some cin)) (Text (Some cout)) d))
               = entries d ++ [e]
       /\ te_clock_in e = cin /\ te_clock_out e = Some cout.
Proof.
  intros Hlt Hov. unfold post_entry. cbn [new_Date].
  destruct (Z.leb_spec cout cin); [lia |]. rewrite Hov. cbn [fst snd entries].
  split; [reflexivity |]. eexists. repeat split.
Qed.

(** C4, the failing inputs. POST /entry stores a manual entry of 25 hours,
    and PUT /entry/:id stretches a completed entry to 25 hours, where the
    form of the client refuses both intervals. *)
Theorem backend_accepts_long_entries :
  (succeeded (fst Scenario.long_entry) = true
   /\ (exists e, entries (snd Scenario.long_entry) = [e]
         /\ te_clock_in e = 0 /\ te_clock_out e = Some 90000000)
   /\ TimeEntryModal.validateForm (Some 0) (Some 90000000) = false)
  /\ (succeeded (fst Scenario.long_update) = true
      /\ (exists e, entries (snd Scenario.long_update) = [e]
            /\ te_clock_in e = 100 /\ te_clock_out e = Some 90000100)
      /\ TimeEntryModal.validateForm (Some 100) (Some 90000100) = false).
Proof.
  split; (split; [reflexivity | split; [eexists; repeat split | reflexivity]]).
Qed.

(** ** The single active entry *)

(** Clock-in with an entry in progress is refused and changes nothing. *)
Lemma clock_in_while_active now userId d :
  active_of userId d <> [] ->
  clock_in now userId d = (R_already_clocked_in, d).
Proof.
  intros H. unfold clock_in. destruct (active_of userId d); [contradiction | reflexivity].
Qed.

(** Clock-in with no entry in progress leaves exactly one. *)
Lemma clock_in_single_active now userId d :
  active_of userId d = [] ->
  List.length (active_of userId (snd (clock_in now userId d))) = 1%nat.
Proof.
  intros H. unfold clock_in. rewrite H. cbn [snd]. unfold active_of in *.
  cbn [entries]. rewrite filter_app, H. cbn. now rewrite Z.eqb_refl.
Qed.

(** Every request keeps the entries in progress of a subject at one at most,
    as long as an update sends a clock-out. *)
Lemma filter_update_le (q p : time_entry -> bool) g rows :
  (forall e, q (g e) = true -> q e = true) ->
  (List.length (filter q (update_where p g rows)) <= List.length (filter q rows))%nat.
Proof.
  intros H. induction rows as [| e rows IH]; [apply le_n |].
  cbn [update_where map filter]. fold (update_where p g rows).
  destruct (p e).
  - destruct (q (g e)) eqn:Q.
    + rewrite (H e Q). cbn [List.length]. lia.
    + destruct (q e); cbn [List.length]; lia.
  - destruct (q e); cbn [List.length]; lia.
Qed.

Lemma filter_filter_le {A} (q p : A -> bool) rows :
  (List.length (filter q (filter p rows)) <= List.length (filter q rows))%nat.
Proof.
  induction rows as [| e rows IH]; [apply le_n |].
  cbn [filter]. destruct (p e), (q e) eqn:Q; cbn [filter List.length]; rewrite ?Q;
    cbn [List.length]; lia.
Qed.

Lemma single_active_update p g d :
  (forall e, te_user_id (g e) = te_user_id e) ->
  (forall e, is_null (te_clock_out (g e)) = true -> is_null (te_clock_out e) = true) ->
  single_active d ->
  single_active (set_entries (update_where p g (entries d)) d).
Proof.
  intros Hu Hc H uid. unfold active_of, set_entries. cbn [entries].
  eapply Nat.le_trans; [apply filter_update_le | apply (H uid)].
  intros e. rewrite Hu, !andb_true_iff. intros [A B]. auto.
Qed.

Lemma clock_in_preserves now userId d :
  single_active d -> single_active (snd (clock_in now userId d)).
Proof.
  intros H uid. unfold clock_in.
  destruct (active_of userId d) as [| a r] eqn:E; cbn [snd]; [| apply H].
  unfold active_of in *. cbn [entries]. rewrite filter_app, List.length_app.
  cbn [filter te_user_id te_clock_out is_null andb].
  destruct (userId =? uid) eqn:Q; cbn [andb List.length].
  - apply Z.eqb_eq in Q. subst uid. rewrite E. cbn. lia.
  - specialize (H uid). unfold active_of in H. cbn [List.length]. lia.
Qed.

Lemma clock_out_preserves now userId d :
  single_active d -> single_active (snd (clock_out now userId d)).
Proof.
  intros H uid. unfold clock_out.
  destruct (active_of userId d) as [| a r]; [apply H |].
  assert (L : single_active (set_entries (update_where (fun e => te_id e =? te_id a)
                (set_clock_out (Some now)) (entries d)) d)).
  { apply single_active_update; [reflexivity | discriminate | exact H]. }
  destruct (returning _ _ _); apply L.
Qed.

Lemma post_entry_preserves now userId clockIn clockOut d :
  single_active d -> single_active (snd (post_entry now userId clockIn clockOut d)).
Proof.
  intros H uid. unfold post_entry.
  destruct clockIn as [| | t | t], clockOut as [| | t' | t']; cbn [snd new_Date];
    try apply H.
  all: try (destruct t; [| apply H]); try (destruct t'; [| apply H]); try apply H.
  all: match goal with |- context [if ?b then _ else _] => destruct b end; try apply H.
  all: match goal with |- context [filter ?p ?l] => destruct (filter p l) end; try apply H.
  all: cbn [snd]; unfold active_of; cbn [entries]; rewrite filter_app;
    cbn [filter te_clock_out is_null]; rewrite andb_false_r, app_nil_r; apply H.
Qed.

Lemma approval_step_preserves now rq pc d :
  single_active d -> single_active (snd (approval_step now rq pc d)).
Proof.
  intros H uid. destruct pc as [| s | s e | r]; cbn [approval_step].
  - destruct (ar_status rq) as [[| |] |]; try apply H;
      unfold approval_check; destruct (select_manual _ _); try apply H;
      destruct (status_is _ _); apply H.
  - assert (L : single_active (set_entries (update_where (fun e => te_id e =? ar_id rq)
                (decide_entry s (ar_adminId rq) now (ar_notes rq)) (entries d)) d)).
    { apply single_active_update; [reflexivity | auto | exact H]. }
    destruct (returning _ _ _); apply L.
  - apply H.
  - apply H.
Qed.

Lemma patch_approval_preserves now rq d :
  single_active d -> single_active (snd (patch_approval now rq d)).
Proof.
  intros H. unfold patch_approval.
  pose proof (approval_step_preserves now rq P_start d H) as H1.
  destruct (approval_step now rq P_start d) as [pc1 d1]. cbn [snd] in H1.
  pose proof (approval_step_preserves now rq pc1 d1 H1) as H2.
  destruct (approval_step now rq pc1 d1) as [pc2 d2]. cbn [snd] in H2.
  pose proof (approval_step_preserves now rq pc2 d2 H2) as H3.
  destruct (approval_step now rq pc2 d2) as [pc3 d3]. cbn [snd] in H3.
  destruct pc3; exact H3.
Qed.

Lemma delete_entry_preserves userId entryId d :
  single_active d -> single_active (snd (delete_entry userId entryId d)).
Proof.
  intros H uid. unfold delete_entry.
  destruct (select_owned entryId userId d); [apply H |].
  destruct (filter _ (entries d)); [| apply H].
  cbn [snd]. unfold active_of. cbn [entries].
  eapply Nat.le_trans; [apply filter_filter_le | apply (H uid)].
Qed.

Lemma fallback_flag_preserves f userId entryId d :
  single_active d -> single_active (snd (fallback_flag f userId entryId d)).
Proof.
  intros H uid. unfold fallback_flag.
  destruct (f Q_verify); [apply H |].
  destruct (select_owned entryId userId d); [apply H |].
  destruct (f Q_flag); [apply H |].
  assert (L : single_active (set_entries (update_where (fun e => te_id e =? entryId)
                flag_for_review (entries d)) d)).
  { apply single_active_update; [reflexivity | auto | exact H]. }
  destruct (returning _ _ _); [apply L |].
  destruct (f Q_flag_audit); apply L.
Qed.

Lemma put_entry_apply_preserves f userId entryId existing cin cout d :
  single_active d ->
  match put_entry_apply f userId entryId existing cin (Some cout) d with
  | Respond _ d' | Throw d' => single_active d'
  end.
Proof.
  intros H. unfold put_entry_apply.
  destruct (_ && _ && _); [exact H |].
  destruct (f Q_update); [exact H |].
  match goal with |- context [update_where ?p ?g (entries d)] =>
    assert (L : single_active (set_entries (update_where p g (entries d)) d)) end.
  { apply single_active_update; [reflexivity | discriminate | exact H]. }
  destruct (f Q_audit); [exact L |].
  destruct (returning _ _ _); exact L.
Qed.

Lemma put_entry_closed_preserves f now userId entryId clockIn clockOut d :
  and_trim clockOut <> Some false ->
  single_active d ->
  single_active (snd (put_entry f now userId entryId clockIn clockOut d)).
Proof.
  intros Hc H. unfold put_entry.
  assert (T : match put_entry_try f now userId entryId clockIn clockOut d with
              | Respond _ d' | Throw d' => single_active d'
              end).
  { unfold put_entry_try.
    destruct (f Q_entry_check); [exact H |].
    destruct (select_owned entryId userId d) as [| existing rest]; [exact H |].
    destruct clockIn as [| | t | t]; try exact H.
    all: destruct (and_trim clockOut) as [[|] |]; try exact H; try contradiction.
    all: cbn [new_Date]; try exact H.
    all: try (destruct t; [| exact H]).
    all: destruct (new_Date clockOut) as [cout |]; try exact H.
    all: try (match goal with |- context [if ?b then _ else _] => destruct b end;
              [exact H |]).
    all: unfold put_entry_checked; (destruct (f Q_overlap); [exact H |]);
      (destruct (overlapCheck _ _ _ _ _ _); [| exact H]);
      (destruct (is_null _); [exact H |]);
      now apply put_entry_apply_preserves. }
  destruct (put_entry_try f now userId entryId clockIn clockOut d) as [r d' | d'].
  - exact T.
  - now apply fallback_flag_preserves.
Qed.

Lemma empty_db_single_active : single_active empty_db.
Proof. intros uid. apply Nat.le_0_l. Qed.

(** C6, the failing run. Subject 1 has one completed entry and one entry in
    progress. An update of the completed entry that sends no clockOut passes
    the overlap query (the entry in progress started later), passes the
    active-entry test (the stored entry is completed) and writes
    clock_out = NULL: the subject now has two entries in progress. *)
Theorem reopening_update_breaks_single_active :
  single_active Scenario.clocked_in_again
  /\ (exists v, fst Scenario.reopened = R_updated true v /\ v_id v = 1
        /\ v_clockOut v = None)
  /\ List.length (active_of 1 (snd Scenario.reopened)) = 2%nat
  /\ ~ single_active (snd Scenario.reopened)
  /\ fst (clock_in 500 1 (snd Scenario.reopened)) = R_already_clocked_in.
Proof.
  split; [| split; [| split; [reflexivity | split; [| reflexivity]]]].
  - unfold Scenario.clocked_in_again, Scenario.one_automatic.
    apply clock_in_preserves, clock_out_preserves, clock_in_preserves,
      empty_db_single_active.
  - eexists. repeat split.
  - intros H. specialize (H 1). vm_compute in H. lia.
Qed.

(** ** The no-op update *)

(** C9, as amended. When the ownership and the overlap query run, an update
    of a completed entry of the caller that is manual and pending, whose
    stored clock-out is later than its clock-in, with the stored clock-in
    and clock-out, whose interval meets no other entry of the subject,
    answers 200 with the state of the entry and leaves both tables as they
    were. *)
Theorem noop_update_echoes f now userId entryId cin cout d existing rest :
  f Q_entry_check = false -> f Q_overlap = false ->
  select_owned entryId userId d = existing :: rest ->
  te_is_manual existing = Some true ->
  te_approval_status existing = Some Pending ->
  te_clock_in existing = cin ->
  te_clock_out existing = Some cout ->
  cin < cout ->
  overlapCheck now userId entryId cin (Some cout) d = [] ->
  put_entry f now userId entryId (Text (Some cin)) (Text (Some cout)) d
  = (R_no_changes (mkView (te_id existing) cin (Some cout) (Some true) (Some Pending)), d).
Proof.
  intros Hf1 Hf2 Hs Hm Hp Hin Hout Hlt Hov.
  apply put_entry_respond.
  rewrite (put_entry_try_both f now userId entryId cin cout d existing rest) by assumption.
  destruct (Z.leb_spec cout cin); [lia |].
  unfold put_entry_checked. rewrite Hf2, Hov, Hout. cbn [is_null].
  unfold put_entry_apply, timesChanged, view_of.
  rewrite Hin, Hout, Hm, Hp, !Z.eqb_refl. reflexivity.
Qed.


(** The statement above on the table holding one pending entry. *)
Lemma noop_update_echoes_witness :
  put_entry no_faults 3000 1 1 (Text (Some 100)) (Text (Some 200)) Scenario.one_pending
  = (R_no_changes (mkView 1 100 (Some 200) (Some true) (Some Pending)),
     Scenario.one_pending).
Proof.
  apply (noop_update_echoes no_faults 3000 1 1 100 200 Scenario.one_pending
           (mkEntry 1 1 100 (Some 200) (Some true) (Some Pending) None None None 1000) []);
    reflexivity.
Defined.

(** C9, counterexample. Entry 1 is manual and pending and the request sends
    its stored instants; a second pending entry of the subject covers the same
    interval, and the request fails with OVERLAP. *)
Lemma noop_update_rejected_on_overlap :
  (exists e, select_owned 1 1 (snd Scenario.two_pending) = [e]
     /\ te_is_manual e = Some true /\ te_approval_status e = Some Pending
     /\ te_clock_in e = 100 /\ te_clock_out e = Some 200)
  /\ fst Scenario.resent_with_twin = R_overlap
  /\ succeeded (fst Scenario.resent_with_twin) = false.
Proof.
  split; [| split; reflexivity].
  eexists. repeat split.
Qed.

(** The ordering test comes before the short-circuit too. Entry 1 is
    completed, manual and pending, and its stored clock-out (3000) is before
    its clock-in (5000): the update that reopened it and the clock-out that
    followed are both accepted. The request that sends the stored instants
    fails with CLOCK_ORDER and changes nothing. *)
Lemma noop_update_rejected_on_reversed_entry :
  select_owned 1 1 Scenario.ends_before_start
  = [mkEntry 1 1 5000 (Some 3000) (Some true) (Some Pending) None None None 1000]
  /\ overlapCheck 4000 1 1 5000 (Some 3000) Scenario.ends_before_start = []
  /\ Scenario.resent_reversed = (R_clock_order, Scenario.ends_before_start).
Proof. repeat split. Qed.

(** ** Error precedence of the update *)

(** C10. For an update of an entry in progress, with a valid clock-in:
    a clock-out at or before the clock-in fails with CLOCK_ORDER; ordered
    instants, or a clock-in alone, that the overlap query matches fail with
    OVERLAP; and ACTIVE_EDIT_FORBIDDEN is the answer only when the ordering
    test and the overlap query have both passed. *)
Theorem update_error_precedence f now userId entryId cin d existing rest :
  f Q_entry_check = false -> f Q_overlap = false ->
  select_owned entryId userId d = existing :: rest ->
  te_clock_out existing = None ->
  (forall cout, cout <= cin ->
     fst (put_entry f now userId entryId (Text (Some cin)) (Text (Some cout)) d)
     = R_clock_order)
  /\ (forall cout, cin < cout ->
        overlapCheck now userId entryId cin (Some cout) d <> [] ->
        fst (put_entry f now userId entryId (Text (Some cin)) (Text (Some cout)) d)
        = R_overlap)
  /\ (forall clockOut, and_trim clockOut = Some false ->
        overlapCheck now userId entryId cin None d <> [] ->
        fst (put_entry f now userId entryId (Text (Some cin)) clockOut d) = R_overlap)
  /\ (forall clockOut,
        fst (put_entry f now userId entryId (Text (Some cin)) clockOut d)
        = R_active_edit_forbidden ->
        (and_trim clockOut = Some false
         /\ overlapCheck now userId entryId cin None d = [])
        \/ (exists cout, and_trim clockOut = Some true /\ new_Date clockOut = Some cout
              /\ cin < cout
              /\ overlapCheck now userId entryId cin (Some cout) d = []))
  /\ (forall cout, cin < cout ->
        overlapCheck now userId entryId cin (Some cout) d = [] ->
        fst (put_entry f now userId entryId (Text (Some cin)) (Text (Some cout)) d)
        = R_active_edit_forbidden).
Proof.
  intros Hf1 Hf2 Hs Hact.
  assert (Hchk : forall co,
    put_entry_checked f now userId entryId existing cin co d
    = match overlapCheck now userId entryId cin co d with
      | _ :: _ => Respond R_overlap d
      | [] => Respond R_active_edit_forbidden d
      end).
  { intros co. unfold put_entry_checked. rewrite Hf2, Hact. reflexivity. }
  repeat split.
  - intros cout Hle. erewrite put_entry_respond; [reflexivity |].
    rewrite (put_entry_try_both f now userId entryId cin cout d existing rest) by assumption.
    destruct (Z.leb_spec cout cin); [reflexivity | lia].
  - intros cout Hlt Hov. erewrite put_entry_respond; [reflexivity |].
    rewrite (put_entry_try_both f now userId entryId cin cout d existing rest) by assumption.
    destruct (Z.leb_spec cout cin); [lia |].
    rewrite Hchk. destruct (overlapCheck _ _ _ _ _ _); [contradiction | reflexivity].
  - intros clockOut Ht Hov. erewrite put_entry_respond; [reflexivity |].
    rewrite (put_entry_try_open f now userId entryId cin clockOut d existing rest) by assumption.
    rewrite Hchk. destruct (overlapCheck _ _ _ _ _ _); [contradiction | reflexivity].
  - intros clockOut. unfold put_entry, put_entry_try. rewrite Hf1, Hs.
    destruct clockOut as [| | [cout |] | t]; cbn [and_trim new_Date].
    + rewrite Hchk. destruct (overlapCheck _ _ _ _ _ _) eqn:E; cbn [fst];
        [auto | discriminate].
    + rewrite Hchk. destruct (overlapCheck _ _ _ _ _ _) eqn:E; cbn [fst];
        [auto | discriminate].
    + destruct (Z.leb_spec cout cin); cbn [fst]; [discriminate |].
      rewrite Hchk. destruct (overlapCheck _ _ _ _ _ _) eqn:E; cbn [fst];
        [| discriminate].
      intros _. right. exists cout. auto.
    + cbn [fst]. discriminate.
    + intros H.
      destruct (fallback_flag_response f userId entryId d)
        as [F | [F | (v & F)]]; rewrite F in H; discriminate.
  - intros cout Hlt Hov. erewrite put_entry_respond; [reflexivity |].
    rewrite (put_entry_try_both f now userId entryId cin cout d existing rest) by assumption.
    destruct (Z.leb_spec cout cin); [lia |].
    rewrite Hchk, Hov. reflexivity.
Qed.

(** The statement above on the table where entry 2 is in progress. *)
Lemma update_error_precedence_witness :
  fst (put_entry no_faults 400 1 2 (Text (Some 350)) (Text (Some 320))
         Scenario.clocked_in_again) = R_clock_order
  /\ fst (put_entry no_faults 400 1 2 (Text (Some 150)) (Text (Some 320))
            Scenario.clocked_in_again) = R_overlap.
Proof.
  pose proof (update_error_precedence no_faults 400 1 2 350 Scenario.clocked_in_again
                (mkEntry 2 1 300 None (Some false) (Some Approved) None None None 300) []
                eq_refl eq_refl eq_refl eq_refl) as (H1 & _).
  pose proof (update_error_precedence no_faults 400 1 2 150 Scenario.clocked_in_again
                (mkEntry 2 1 300 None (Some false) (Some Approved) None None None 300) []
                eq_refl eq_refl eq_refl eq_refl) as (_ & H2 & _).
  split.
  - apply H1. lia.
  - apply H2; [lia | discriminate].
Defined.

(** ** Review of a pending entry by two admins *)

(** The decision of an admin leaves the manual rows of an id the manual rows
    of that id. *)
Lemma select_manual_decided id status adminId now notes rows :
  filter (fun e => (te_id e =? id) && truthy (te_is_manual e))
         (update_where (fun e => te_id e =? id) (decide_entry status adminId now notes) rows)
  = map (decide_entry status adminId now notes)
        (filter (fun e => (te_id e =? id) && truthy (te_is_manual e)) rows).
Proof.
  induction rows as [| e rows IH]; [reflexivity |].
  cbn [update_where map filter] in *. fold (update_where (fun e => te_id e =? id)
    (decide_entry status adminId now notes) rows).
  destruct (te_id e =? id) eqn:E; cbn [decide_entry te_id te_is_manual andb].
  - rewrite E. cbn [andb]. destruct (truthy (te_is_manual e)); cbn [map]; now rewrite IH.
  - rewrite E. cbn [andb]. exact IH.
Qed.


Lemma patch_approval_pending now rq d row rest s :
  select_manual (ar_id rq) d = row :: rest ->
  te_approval_status row = Some Pending ->
  ar_status rq = Some s -> s <> Pending ->
  exists v a,
    patch_approval now rq d
    = (R_reviewed v,
       mkDb (update_where (fun e => te_id e =? ar_id rq)
               (decide_entry s (ar_adminId rq) now (ar_notes rq)) (entries d))
            (audit d ++ [a]) (next_id d)).
Proof.
  intros Hs Hp Hst Hne.
  pose proof (filter_head _ _ _ _ Hs) as [Hin Hq].
  apply andb_true_iff in Hq. destruct Hq as [Hid _].
  destruct (returning_cons (fun e => te_id e =? ar_id rq)
              (decide_entry s (ar_adminId rq) now (ar_notes rq)) (entries d) row Hin Hid)
    as (entry & r & Hret).
  unfold patch_approval. cbn [approval_step]. rewrite Hst.
  destruct s; [contradiction | |];
    unfold approval_check; rewrite Hs, Hp; cbn [status_is approval_eqb approval_step];
    rewrite Hret; cbn [approval_step]; do 2 eexists; reflexivity.
Qed.

Lemma patch_approval_decided now rq d row rest s :
  select_manual (ar_id rq) d = row :: rest ->
  te_approval_status row <> Some Pending ->
  ar_status rq = Some s -> s <> Pending ->
  patch_approval now rq d = (R_already_reviewed, d).
Proof.
  intros Hs Hp Hst Hne.
  unfold patch_approval. cbn [approval_step]. rewrite Hst.
  assert (E : status_is Pending (te_approval_status row) = false).
  { destruct (te_approval_status row) as [[| |] |]; try reflexivity. congruence. }
  destruct s; [contradiction | |];
    unfold approval_check; rewrite Hs, E; reflexivity.
Qed.

(** Two requests handled one after the other. *)
Lemma sequential_reviews_exclusive now1 now2 rq1 rq2 d row rest s1 s2 :
  select_manual (ar_id rq1) d = row :: rest ->
  te_approval_status row = Some Pending ->
  ar_status rq1 = Some s1 -> s1 <> Pending ->
  ar_status rq2 = Some s2 -> s2 <> Pending ->
  ar_id rq2 = ar_id rq1 ->
  succeeded (fst (patch_approval now1 rq1 d)) = true
  /\ fst (patch_approval now2 rq2 (snd (patch_approval now1 rq1 d))) = R_already_reviewed.
Proof.
  intros Hs Hp H1 N1 H2 N2 Hid.
  destruct (patch_approval_pending now1 rq1 d row rest s1 Hs Hp H1 N1) as (v & a & ->).
  cbn [fst snd]. split; [reflexivity |].
  erewrite patch_approval_decided with (s := s2)
    (row := decide_entry s1 (ar_adminId rq1) now1 (ar_notes rq1) row); try eassumption.
  - reflexivity.
  - unfold select_manual. cbn [entries]. rewrite Hid, select_manual_decided.
    unfold select_manual in Hs. rewrite Hs. reflexivity.
  - cbn. congruence.
Qed.


Lemma pair_step_first now rq1 rq2 pc1 pc2 d :
  pair_step now rq1 rq2 (mkPair pc1 pc2 d) false
  = mkPair (fst (approval_step now rq1 pc1 d)) pc2 (snd (approval_step now rq1 pc1 d)).
Proof. unfold pair_step. cbn. now destruct (approval_step now rq1 pc1 d). Qed.

Lemma pair_step_second now rq1 rq2 pc1 pc2 d :
  pair_step now rq1 rq2 (mkPair pc1 pc2 d) true
  = mkPair pc1 (fst (approval_step now rq2 pc2 d)) (snd (approval_step now rq2 pc2 d)).
Proof. unfold pair_step. cbn. now destruct (approval_step now rq2 pc2 d). Qed.

(** When one approval request on a pending manual entry runs to its end
    before a second request on the same entry starts, the first succeeds and
    the second fails with 'already been reviewed'. *)
Theorem sequential_schedule_exclusive now rq1 rq2 d row rest s1 s2 :
  select_manual (ar_id rq1) d = row :: rest ->
  te_approval_status row = Some Pending ->
  ar_status rq1 = Some s1 -> s1 <> Pending ->
  ar_status rq2 = Some s2 -> s2 <> Pending ->
  ar_id rq2 = ar_id rq1 ->
  exists v,
    ps_first (run_pair now rq1 rq2 Scenario.sequential d) = P_done (R_reviewed v)
    /\ ps_second (run_pair now rq1 rq2 Scenario.sequential d) = P_done R_already_reviewed.
Proof.
  intros Hs Hp H1 N1 H2 N2 Hid.
  pose proof (patch_approval_pending now rq1 d row rest s1 Hs Hp H1 N1) as (v & a & P1).
  pose proof (sequential_reviews_exclusive now now rq1 rq2 d row rest s1 s2
                Hs Hp H1 N1 H2 N2 Hid) as [_ P2].
  rewrite P1 in P2. cbn [snd] in P2.
  unfold run_pair, Scenario.sequential. cbn [fold_left].
  rewrite !pair_step_first, !pair_step_second.
  unfold patch_approval in P1, P2.
  destruct (approval_step now rq1 P_start d) as [pc1 d1]. cbn [fst snd].
  destruct (approval_step now rq1 pc1 d1) as [pc2 d2]. cbn [fst snd].
  destruct (approval_step now rq1 pc2 d2) as [pc3 d3]. cbn [fst snd].
  destruct pc3; try discriminate. inversion P1; subst.
  destruct (approval_step now rq2 P_start _) as [qc1 e1]. cbn [fst snd].
  destruct (approval_step now rq2 qc1 e1) as [qc2 e2]. cbn [fst snd].
  destruct (approval_step now rq2 qc2 e2) as [qc3 e3]. cbn [fst snd] in *.
  exists v. cbn [ps_first ps_second]. split; [reflexivity |].
  destruct qc3; cbn [fst] in P2; try discriminate. now subst.
Qed.

(** The statement above for the two decisions on entry 1. *)
Lemma sequential_schedule_exclusive_witness :
  exists v,
    ps_first (run_pair 5000 Scenario.approve_by_7 Scenario.deny_by_8
                Scenario.sequential Scenario.one_pending) = P_done (R_reviewed v)
    /\ ps_second (run_pair 5000 Scenario.approve_by_7 Scenario.deny_by_8
                    Scenario.sequential Scenario.one_pending)
       = P_done R_already_reviewed.
Proof.
  apply (sequential_schedule_exclusive 5000 Scenario.approve_by_7 Scenario.deny_by_8
           Scenario.one_pending
           (mkEntry 1 1 100 (Some 200) (Some true) (Some Pending) None None None 1000) []
           Approved Denied); try reflexivity; discriminate.
Defined.

(** C5, the failing input. Entry 1 is pending; the two requests read it
    before either writes. Both are answered 200, two decisions are audited
    and the row holds the second one, where the claim has one success and one
    'already been reviewed'. The SELECT that reads approval_status and the
    UPDATE that writes the decision are separate statements: of the 20
    schedules of the two requests, the 8 in which one request has written
    before the other reads give one success and one refusal, and the other
    12 give two successes. *)
Theorem interleaved_reviews_both_succeed :
  select_manual 1 Scenario.one_pending
  = [mkEntry 1 1 100 (Some 200) (Some true) (Some Pending) None None None 1000]
  /\ (exists v1 v2 d,
        run_pair 5000 Scenario.approve_by_7 Scenario.deny_by_8
          Scenario.interleaved Scenario.one_pending
        = mkPair (P_done (R_reviewed v1)) (P_done (R_reviewed v2)) d
        /\ rv_approvalStatus v1 = Some Approved
        /\ rv_approvalStatus v2 = Some Denied
        /\ map te_approval_status (entries d) = [Some Denied]
        /\ map au_action (audit d) = [A_create; A_approve; A_deny])
  /\ In Scenario.interleaved (interleavings 3 3)
  /\ List.length (interleavings 3 3) = 20%nat
  /\ List.length
       (filter (fun s =>
                  let r := run_pair 5000 Scenario.approve_by_7 Scenario.deny_by_8 s
                             Scenario.one_pending in
                  reviewed (ps_first r) && reviewed (ps_second r))
               (interleavings 3 3)) = 12%nat
  /\ List.length
       (filter (fun s =>
                  let r := run_pair 5000 Scenario.approve_by_7 Scenario.deny_by_8 s
                             Scenario.one_pending in
                  (reviewed (ps_first r) && refused_as_reviewed (ps_second r))
                  || (refused_as_reviewed (ps_first r) && reviewed (ps_second r)))
               (interleavings 3 3)) = 8%nat.
Proof.
  split; [reflexivity |].
  split; [do 3 eexists; split; [reflexivity |]; repeat split |].
  split; [vm_compute; tauto |].
  repeat split; vm_compute; reflexivity.
Qed.

(** ** Payroll figures *)

Import Payroll.

Example Math_min_picks_smaller :
  Math_min 45 40 = 40%float /\ Math_min 30 40 = 30%float
  /\ Math_max 0 5 = 5%float /\ Math_max 0 (-10) = 0%float.
Proof. repeat split. Qed.

(** [Math_min] and [Math_max] pick the smaller and the larger of two numbers
    that compare. *)
Lemma SFcompare_refl x : x <> S754_nan -> SFcompare x x = Some Eq.
Proof.
  destruct x as [s | s | | s m e]; intros H; try contradiction; cbn.
  - reflexivity.
  - now destruct s.
  - rewrite Z.compare_refl, Pos.compare_cont_refl. now destruct s.
Qed.

Lemma ltb_not_nan a b : (a <? b)%float = true -> is_nan a = false /\ is_nan b = false.
Proof.
  rewrite ltb_spec. unfold SFltb, is_nan. rewrite !eqb_spec. unfold SFeqb.
  intros H.
  assert (Prim2SF a <> S754_nan /\ Prim2SF b <> S754_nan) as [Ha Hb].
  { destruct (Prim2SF a), (Prim2SF b); cbn in H; try discriminate; split; discriminate. }
  now rewrite !SFcompare_refl.
Qed.

Lemma finite_cmp_asym (neg : bool) e e' m m' :
  (if neg
   then match (e ?= e')%Z with
        | Lt => Gt | Gt => Lt | Eq => CompOpp (Pos.compare_cont Eq m m') end
   else match (e ?= e')%Z with
        | Lt => Lt | Gt => Gt | Eq => Pos.compare_cont Eq m m' end) = Lt ->
  (if neg
   then match (e' ?= e)%Z with
        | Lt => Gt | Gt => Lt | Eq => CompOpp (Pos.compare_cont Eq m' m) end
   else match (e' ?= e)%Z with
        | Lt => Lt | Gt => Gt | Eq => Pos.compare_cont Eq m' m end) <> Lt.
Proof.
  rewrite (Z.compare_antisym e e').
  change (Pos.compare_cont Eq m' m) with (Pos.compare m' m).
  change (Pos.compare_cont Eq m m') with (Pos.compare m m').
  rewrite (Pos.compare_antisym m m').
  destruct neg, (e ?= e')%Z, (m ?= m')%positive; cbn; congruence.
Qed.

Lemma ltb_asym a b : (a <? b)%float = true -> (b <? a)%float = false.
Proof.
  rewrite !ltb_spec. unfold SFltb.
  destruct (Prim2SF a) as [s | s | | s m e], (Prim2SF b) as [s' | s' | | s' m' e'];
    cbn; try discriminate; try reflexivity;
    try (destruct s; try destruct s'; cbn; try discriminate; reflexivity).
  destruct s, s'; try discriminate; try reflexivity.
  - intros H. pose proof (finite_cmp_asym true e e' m m') as F. cbn in F.
    destruct (match (e ?= e')%Z with Lt => Gt | Gt => Lt | Eq => _ end) eqn:E1;
      try discriminate.
    specialize (F eq_refl).
    destruct (match (e' ?= e)%Z with Lt => Gt | Gt => Lt | Eq => _ end); congruence.
  - intros H. pose proof (finite_cmp_asym false e e' m m') as F. cbn in F.
    destruct (match (e ?= e')%Z with Lt => Lt | Gt => Gt | Eq => _ end) eqn:E1;
      try discriminate.
    specialize (F eq_refl).
    destruct (match (e' ?= e)%Z with Lt => Lt | Gt => Gt | Eq => _ end); congruence.
Qed.

Lemma Math_min_lt a b : (a <? b)%float = true -> Math_min a b = a /\ Math_max a b = b.
Proof.
  intros H. destruct (ltb_not_nan a b H) as [Na Nb].
  unfold Math_min, Math_max. now rewrite Na, Nb, H.
Qed.

Lemma Math_min_gt a b : (b <? a)%float = true -> Math_min a b = b /\ Math_max a b = a.
Proof.
  intros H. destruct (ltb_not_nan b a H) as [Nb Na].
  unfold Math_min, Math_max. now rewrite Na, Nb, (ltb_asym b a H), H.
Qed.

Lemma ltb_irrefl a : (a <? a)%float = false.
Proof.
  destruct (a <? a)%float eqn:E; [| reflexivity].
  pose proof (ltb_asym a a E). congruence.
Qed.

(** [Math_min] of two numbers is one of them and is above neither;
    [Math_max] is one of them and is below neither. *)
Lemma Math_min_spec a b :
  is_nan a = false -> is_nan b = false ->
  (Math_min a b = a \/ Math_min a b = b)
  /\ (a <? Math_min a b)%float = false /\ (b <? Math_min a b)%float = false.
Proof.
  intros Na Nb. unfold Math_min. rewrite Na, Nb. cbn [orb].
  destruct (a <? b)%float eqn:L1.
  - split; [now left |]. split; [apply ltb_irrefl | now apply ltb_asym].
  - destruct (b <? a)%float eqn:L2.
    + split; [now right |]. split; [exact L1 | apply ltb_irrefl].
    + destruct (get_sign a).
      * split; [now left |]. split; [apply ltb_irrefl | exact L2].
      * split; [now right |]. split; [exact L1 | apply ltb_irrefl].
Qed.

Lemma Math_max_spec a b :
  is_nan a = false -> is_nan b = false ->
  (Math_max a b = a \/ Math_max a b = b)
  /\ (Math_max a b <? a)%float = false /\ (Math_max a b <? b)%float = false.
Proof.
  intros Na Nb. unfold Math_max. rewrite Na, Nb. cbn [orb].
  destruct (a <? b)%float eqn:L1.
  - split; [now right |]. split; [now apply ltb_asym | apply ltb_irrefl].
  - destruct (b <? a)%float eqn:L2.
    + split; [now left |]. split; [apply ltb_irrefl | exact L1].
    + destruct (get_sign a).
      * split; [now right |]. split; [exact L2 | apply ltb_irrefl].
      * split; [now left |]. split; [apply ltb_irrefl | exact L1].
Qed.

(** [x || 0] is [x] itself unless [x] is NaN or a zero. *)
Lemma or_zero_spec x :
  (is_nan x = false -> is_zero x = false -> or_zero x = x)
  /\ (is_nan x = true \/ is_zero x = true -> or_zero x = 0%float).
Proof.
  unfold or_zero. split.
  - intros -> ->. reflexivity.
  - intros [-> | ->]; [reflexivity | now rewrite orb_true_r].
Qed.

(** C7. For hours and a threshold that are numbers whose difference is one
    (no NaN): without overtime the regular hours are the total and the
    overtime hours are 0; with overtime the regular hours are
    min(total, threshold), that is the one of the two that is above neither,
    and the overtime hours are max(0, total - threshold), the one of the two
    that is below neither; the rate is the hourly rate of the user, 0 when
    that is no number; and the estimated gross pay is
    regular * rate + overtime * rate * 1.5 on that rate. With a rate of 20
    and a threshold of 40, 45 hours give 40 regular hours, 5 overtime hours
    and 950, and 30 hours give 30, 0 and 600. The figures are IEEE doubles, as
    in the handler, before the response rounds them to two decimals. *)
Theorem computePayroll_figures total rate threshold :
  is_nan total = false -> is_nan threshold = false ->
  is_nan (total - threshold) = false ->
  (let r := computePayroll total false rate threshold in
   regularHours r = total /\ overtimeHours r = 0%float
   /\ estGross r = (total * or_zero rate + 0 * or_zero rate * 1.5)%float)
  /\ (let r := computePayroll total true rate threshold in
      (regularHours r = total \/ regularHours r = threshold)
      /\ (total <? regularHours r)%float = false
      /\ (threshold <? regularHours r)%float = false
      /\ (overtimeHours r = 0%float \/ overtimeHours r = (total - threshold)%float)
      /\ (overtimeHours r <? 0)%float = false
      /\ (overtimeHours r <? total - threshold)%float = false
      /\ estGross r
         = (regularHours r * or_zero rate + overtimeHours r * or_zero rate * 1.5)%float)
  /\ (forall enabled,
        hours (computePayroll total enabled rate threshold) = total
        /\ hourlyRate (computePayroll total enabled rate threshold) = or_zero rate
        /\ overtimeEnabled (computePayroll total enabled rate threshold) = enabled)
  /\ (is_nan rate = false -> is_zero rate = false -> or_zero rate = rate)
  /\ (is_nan rate = true \/ is_zero rate = true -> or_zero rate = 0%float)
  /\ computePayroll 45 true 20 40 = mkRow 45 40 5 950 20 true
  /\ computePayroll 30 true 20 40 = mkRow 30 30 0 600 20 true
  /\ computePayroll 45 false 20 40 = mkRow 45 45 0 900 20 false.
Proof.
  intros Nt Nh Nd.
  split; [repeat split |].
  split.
  { cbv zeta. unfold computePayroll. cbn [regularHours overtimeHours estGross].
    destruct (Math_min_spec total threshold Nt Nh) as (A & B & C).
    destruct (Math_max_spec 0 (total - threshold) eq_refl Nd) as (D & E & F).
    repeat split; assumption. }
  split; [intros enabled; repeat split |].
  split; [apply or_zero_spec |].
  split; [apply or_zero_spec |].
  repeat split.
Qed.

(** The statement above for 45 hours at a rate of 20 against a threshold of
    40: it leaves 40 as the only regular hours and 5 as the only overtime
    hours, and gives 950. *)
Lemma computePayroll_figures_witness :
  is_nan 45 = false /\ is_nan 40 = false /\ is_nan (45 - 40) = false
  /\ regularHours (computePayroll 45 true 20 40) = 40%float
  /\ overtimeHours (computePayroll 45 true 20 40) = 5%float
  /\ estGross (computePayroll 45 true 20 40) = 950%float.
Proof.
  do 3 (split; [reflexivity |]).
  destruct (computePayroll_figures 45 20 40 eq_refl eq_refl eq_refl)
    as (_ & (R & _ & Rh & O & _ & Od & G) & _ & Z20 & _).
  cbv zeta in R, Rh, O, Od, G.
  assert (HR : regularHours (computePayroll 45 true 20 40) = 40%float).
  { destruct R as [R | R]; [| exact R]. rewrite R in Rh. discriminate Rh. }
  assert (HO : overtimeHours (computePayroll 45 true 20 40) = 5%float).
  { destruct O as [O | O]; [| exact O]. rewrite O in Od. discriminate Od. }
  split; [exact HR |]. split; [exact HO |].
  rewrite G, HR, HO, (Z20 eq_refl eq_refl). reflexivity.
Defined.

(** ** The calendar *)

Import PayPeriodCalculator.

Lemma DayFromYear_succ y : DayFromYear (y + 1) = DayFromYear y + DaysInYear y.
Proof.
  unfold DayFromYear, DaysInYear.
  repeat match goal with |- context [if ?b then _ else _] => destruct b eqn:? end;
  rewrite ?negb_true_iff, ?negb_false_iff, ?Z.eqb_eq, ?Z.eqb_neq in *;
  Z.div_mod_to_equations; lia.
Qed.

Lemma DayFromYear_mono a b : a <= b -> DayFromYear a <= DayFromYear b.
Proof.
  unfold DayFromYear. intros. Z.div_mod_to_equations. lia.
Qed.

(** [YearFromDay d] is the year of ECMA-262: the largest [y] with
    [DayFromYear y <= d]. *)
Lemma YearFromDay_spec d :
  DayFromYear (YearFromDay d) <= d < DayFromYear (YearFromDay d + 1).
Proof.
  unfold YearFromDay.
  set (y := 1970 + 400 * d / 146097).
  assert (Hy : 146097 * (y - 1970) <= 400 * d < 146097 * (y - 1970) + 146097).
  { unfold y. Z.div_mod_to_equations. lia. }
  clearbody y.
  destruct (d <? DayFromYear y) eqn:E1; [apply Z.ltb_lt in E1 | apply Z.ltb_ge in E1].
  - replace (y - 1 + 1) with y by lia. split; [| lia].
    unfold DayFromYear in *. Z.div_mod_to_equations. lia.
  - destruct (DayFromYear (y + 1) <=? d) eqn:E2; [apply Z.leb_le in E2 | apply Z.leb_gt in E2].
    + split; [lia|]. unfold DayFromYear in *. Z.div_mod_to_equations. lia.
    + lia.
Qed.

Lemma YearFromDay_unique y d :
  DayFromYear y <= d < DayFromYear (y + 1) -> YearFromDay d = y.
Proof.
  intros H. pose proof (YearFromDay_spec d) as S.
  destruct (Z.lt_trichotomy (YearFromDay d) y) as [L | [E | G]]; [| exact E |].
  - pose proof (DayFromYear_mono (YearFromDay d + 1) y ltac:(lia)). lia.
  - pose proof (DayFromYear_mono (y + 1) (YearFromDay d) ltac:(lia)). lia.
Qed.

Lemma InLeapYear_cases y :
  (InLeapYear y = 0 /\ DaysInYear y = 365) \/ (InLeapYear y = 1 /\ DaysInYear y = 366).
Proof.
  unfold InLeapYear, DaysInYear.
  destruct (y mod 4 =? 0), (y mod 100 =? 0), (y mod 400 =? 0); simpl; auto.
Qed.

Lemma DayWithinYear_range t :
  0 <= DayWithinYear t < 365 + InLeapYear (YearFromTime t).
Proof.
  unfold DayWithinYear, YearFromTime.
  pose proof (YearFromDay_spec (Day t)) as S.
  rewrite DayFromYear_succ in S.
  destruct (InLeapYear_cases (YearFromDay (Day t))) as [[-> ?] | [-> ?]]; lia.
Qed.

Lemma MonthFromTime_range t : 0 <= MonthFromTime t <= 11.
Proof. unfold MonthFromTime. month_cases; lia. Qed.

Lemma MonthFromTime_bracket t :
  let leap := InLeapYear (YearFromTime t) in
  monthStart leap (MonthFromTime t) <= DayWithinYear t
    < monthStart leap (MonthFromTime t + 1).
Proof.
  pose proof (DayWithinYear_range t) as R. cbv zeta.
  unfold MonthFromTime.
  set (dw := DayWithinYear t) in *. set (lp := InLeapYear (YearFromTime t)) in *.
  clearbody dw lp.
  month_cases; month_eval; lia.
Qed.

Lemma MakeDay_in_range year month date :
  0 <= month <= 11 ->
  MakeDay year month date
  = DayFromYear year + monthStart (InLeapYear year) month + date - 1.
Proof.
  intros H. unfold MakeDay.
  rewrite (Z.div_small month 12), (Z.mod_small month 12) by lia.
  now rewrite Z.add_0_r.
Qed.

(** The day number of an instant is rebuilt from its calendar fields. *)
Lemma MakeDay_fields t :
  MakeDay (YearFromTime t) (MonthFromTime t) (DateFromTime t) = Day t.
Proof.
  rewrite MakeDay_in_range by apply MonthFromTime_range.
  unfold DateFromTime, DayWithinYear. lia.
Qed.

(** [setDate_local] moves an instant by whole days and keeps its time of day. *)
Lemma setDate_Day d date :
  Day (setDate_local d date) = Day d + (date - DateFromTime d)
  /\ TimeWithinDay (setDate_local d date) = TimeWithinDay d.
Proof.
  unfold setDate_local, MakeDate.
  pose proof (MakeDay_fields d) as F.
  rewrite !MakeDay_in_range in * by apply MonthFromTime_range.
  unfold Day, TimeWithinDay, msPerDay in *.
  Z.div_mod_to_equations. lia.
Qed.

Lemma Day_MakeDate day time :
  0 <= time < msPerDay ->
  Day (MakeDate day time) = day /\ TimeWithinDay (MakeDate day time) = time.
Proof.
  unfold Day, TimeWithinDay, MakeDate, msPerDay. intros.
  Z.div_mod_to_equations. lia.
Qed.

Lemma month_enum m : 0 <= m <= 11 ->
  m = 0 \/ m = 1 \/ m = 2 \/ m = 3 \/ m = 4 \/ m = 5 \/ m = 6 \/ m = 7 \/ m = 8
  \/ m = 9 \/ m = 10 \/ m = 11.
Proof. lia. Qed.

(** The calendar fields of the day [MakeDay] builds from a valid date. *)
Lemma fields_of_MakeDay y m dt t :
  0 <= m <= 11 -> 1 <= dt <= daysInMonth y m ->
  Day t = MakeDay y m dt ->
  YearFromTime t = y /\ MonthFromTime t = m /\ DateFromTime t = dt.
Proof.
  intros Hm Hd E. rewrite MakeDay_in_range in E by assumption.
  unfold daysInMonth in Hd.
  destruct (InLeapYear_cases y) as [[L Y] | [L Y]].
  all: assert (HY : YearFromTime t = y)
    by (unfold YearFromTime; apply YearFromDay_unique; rewrite DayFromYear_succ, E, Y;
        rewrite L in *;
        destruct (month_enum m Hm) as [-> | [-> | [-> | [-> | [-> | [-> | [-> | [-> | [-> | [-> | [-> | ->]]]]]]]]]]];
        simpl in Hd |- *; lia).
  all: split; [exact HY |].
  all: unfold DateFromTime, MonthFromTime, DayWithinYear; rewrite HY, E, L.
  all: rewrite L in Hd.
  all: destruct (month_enum m Hm) as [-> | [-> | [-> | [-> | [-> | [-> | [-> | [-> | [-> | [-> | [-> | ->]]]]]]]]]]];
       simpl in Hd |- *; month_cases; simpl; lia.
Qed.

Lemma daysInMonth_range y m : 0 <= m <= 11 -> 28 <= daysInMonth y m <= 31.
Proof.
  intros Hm. unfold daysInMonth.
  destruct (InLeapYear_cases y) as [[-> _] | [-> _]];
  destruct (month_enum m Hm) as [-> | [-> | [-> | [-> | [-> | [-> | [-> | [-> | [-> | [-> | [-> | ->]]]]]]]]]]];
  simpl; lia.
Qed.

(** Day 0 of the next month is the last day of the month. *)
Lemma MakeDay_day0 y m :
  0 <= m <= 11 -> MakeDay y (m + 1) 0 = MakeDay y m (daysInMonth y m).
Proof.
  intros Hm. rewrite (MakeDay_in_range y m) by assumption. unfold daysInMonth.
  destruct (Z.eq_dec m 11) as [-> | Hne].
  - unfold MakeDay. change ((11 + 1) / 12) with 1. change ((11 + 1) mod 12) with 0.
    rewrite DayFromYear_succ.
    destruct (InLeapYear_cases y) as [[-> ->] | [-> ->]]; simpl; lia.
  - rewrite MakeDay_in_range by lia. lia.
Qed.

Lemma MakeTime_range h mi s ms :
  0 <= h <= 23 -> 0 <= mi <= 59 -> 0 <= s <= 59 -> 0 <= ms <= 999 ->
  0 <= MakeTime h mi s ms < msPerDay.
Proof. unfold MakeTime, msPerDay. lia. Qed.

Lemma setHours_fields d h mi s ms :
  0 <= MakeTime h mi s ms < msPerDay ->
  Day (setHours_local d h mi s ms) = Day d
  /\ TimeWithinDay (setHours_local d h mi s ms) = MakeTime h mi s ms.
Proof. intros H. unfold setHours_local. now apply Day_MakeDate. Qed.

Lemma time_split t :
  t = Day t * msPerDay + TimeWithinDay t /\ 0 <= TimeWithinDay t < msPerDay.
Proof. unfold Day, TimeWithinDay, msPerDay. Z.div_mod_to_equations. lia. Qed.



Lemma fields_range t :
  0 <= MonthFromTime t <= 11
  /\ 1 <= DateFromTime t <= daysInMonth (YearFromTime t) (MonthFromTime t).
Proof.
  unfold DateFromTime, daysInMonth.
  pose proof (MonthFromTime_range t). pose proof (MonthFromTime_bracket t) as B.
  cbv zeta in B. lia.
Qed.

(** *** Local times *)

Lemma setDate_shift d k : setDate_local d (DateFromTime d + k) = d + k * msPerDay.
Proof.
  destruct (setDate_Day d (DateFromTime d + k)) as [D T].
  destruct (time_split d) as [Ed _].
  destruct (time_split (setDate_local d (DateFromTime d + k))) as [Es _].
  unfold msPerDay in *. lia.
Qed.

Lemma Day_shift d k : Day (d + k * msPerDay) = Day d + k.
Proof. unfold Day, msPerDay. Z.div_mod_to_equations. lia. Qed.

Lemma WeekDay_range t : 0 <= WeekDay t <= 6.
Proof. unfold WeekDay. pose proof (Z.mod_pos_bound (Day t + 4) 7). lia. Qed.

Lemma MakeDay_date y m dt : MakeDay y m dt = MakeDay y m 0 + dt.
Proof. unfold MakeDay. lia. Qed.

(** The day number of the first of the month of a local time. *)
Lemma MakeDay_first t :
  MakeDay (YearFromTime t) (MonthFromTime t) 0 = Day t - DateFromTime t.
Proof. pose proof (MakeDay_fields t) as F. rewrite MakeDay_date in F. lia. Qed.

Lemma Date_local_eq y m dt h mi s ms :
  100 <= y ->
  Date_local y m dt h mi s ms = (MakeDay y m 0 + dt) * msPerDay + MakeTime h mi s ms.
Proof.
  intros Hy. unfold Date_local.
  replace ((0 <=? y) && (y <=? 99)) with false
    by (symmetry; apply andb_false_iff; right; apply Z.leb_gt; lia).
  unfold MakeDate. now rewrite MakeDay_date.
Qed.

Lemma year_days t :
  100 <= YearFromTime t <= 275759 -> -683003 <= Day t <= 99999743.
Proof.
  intros H. unfold YearFromTime in H.
  pose proof (YearFromDay_spec (Day t)) as S.
  pose proof (DayFromYear_mono 100 (YearFromDay (Day t)) ltac:(lia)) as L.
  pose proof (DayFromYear_mono (YearFromDay (Day t) + 1) 275760 ltac:(lia)) as U.
  change (DayFromYear 100) with (-683003) in L.
  change (DayFromYear 275760) with 99999744 in U. lia.
Qed.

(** The calendar fields of a local time whose day is day [dt] of the month
    of [t]. *)
Lemma fields_in_month t dt u :
  1 <= dt <= daysInMonth (YearFromTime t) (MonthFromTime t) ->
  Day u = Day t - DateFromTime t + dt ->
  YearFromTime u = YearFromTime t /\ MonthFromTime u = MonthFromTime t
  /\ DateFromTime u = dt.
Proof.
  intros Hd E. apply fields_of_MakeDay; [apply MonthFromTime_range | exact Hd |].
  rewrite MakeDay_date, MakeDay_first. exact E.
Qed.

(** *** A zone whose offset is steady around the reference date *)

Section Steady.
Variables (tz : time_zone) (off date : Z).
Hypothesis Hs : steady tz off date.
Hypothesis Hy : 100 <= YearFromTime (LocalTime tz date) <= 275759.

Lemma local_near X :
  Z.abs (X - date) <= 33 * msPerDay -> LocalTime tz X = X + off.
Proof. intros H. unfold LocalTime. now rewrite (proj2 Hs X true H). Qed.

Lemma local_date : LocalTime tz date = date + off.
Proof. apply local_near. unfold msPerDay. lia. Qed.

Lemma date_days : -683003 <= Day (date + off) <= 99999743.
Proof. rewrite <- local_date. now apply year_days. Qed.

Lemma utc_near L :
  Z.abs (L - date) <= 33 * msPerDay -> TimeClip (UTC tz L) = Some (L - off).
Proof.
  intros H. unfold UTC. rewrite (proj2 Hs L false H). unfold TimeClip.
  pose proof date_days as B. destruct (time_split (date + off)) as [E R].
  destruct Hs as [Ho _].
  destruct (Z.leb_spec (Z.abs (L - off)) 8640000000000000); [reflexivity |].
  unfold msPerDay in *. lia.
Qed.

Lemma getters_near X :
  Z.abs (X - date) <= 33 * msPerDay ->
  getFullYear tz (Some X) = Some (YearFromTime (X + off))
  /\ getMonth tz (Some X) = Some (MonthFromTime (X + off))
  /\ getDate tz (Some X) = Some (DateFromTime (X + off))
  /\ getDay tz (Some X) = Some (WeekDay (X + off)).
Proof.
  intros H. unfold getFullYear, getMonth, getDate, getDay. cbn [option_map].
  now rewrite (local_near X H).
Qed.

Lemma setDate_near X k :
  Z.abs (X - date) <= 33 * msPerDay ->
  Z.abs (setDate_local (X + off) k - date) <= 33 * msPerDay ->
  setDate tz (Some X) (Some k) = Some (setDate_local (X + off) k - off).
Proof.
  intros H1 H2. unfold setDate. rewrite (local_near X H1). now apply utc_near.
Qed.

Lemma setHours_near X h mi s ms :
  Z.abs (X - date) <= 33 * msPerDay ->
  Z.abs (setHours_local (X + off) h mi s ms - date) <= 33 * msPerDay ->
  setHours tz (Some X) h mi s ms = Some (setHours_local (X + off) h mi s ms - off).
Proof.
  intros H1 H2. unfold setHours. rewrite (local_near X H1). now apply utc_near.
Qed.

Lemma Date_of_near y m dt h mi s ms :
  Z.abs (Date_local y m dt h mi s ms - date) <= 33 * msPerDay ->
  Date_of tz (Some y) (Some m) dt h mi s ms = Some (Date_local y m dt h mi s ms - off).
Proof. intros H. unfold Date_of. now apply utc_near. Qed.

(** The week of the reference date, from the day [back] days before it, at
    00:00:00.000 local time. *)
Lemma week_start back :
  0 <= back <= 6 ->
  setHours tz (setDate tz (Some date)
                 (Some (DateFromTime (date + off) - back))) 0 0 0 0
  = Some ((Day (date + off) - back) * msPerDay - off).
Proof.
  intros Hb. destruct Hs as [Ho _]. destruct (time_split (date + off)) as [E R].
  replace (DateFromTime (date + off) - back)
    with (DateFromTime (date + off) + - back) by lia.
  assert (S1 : setDate tz (Some date) (Some (DateFromTime (date + off) + - back))
               = Some (date + - back * msPerDay)).
  { rewrite setDate_near; rewrite ?setDate_shift.
    - f_equal. lia.
    - unfold msPerDay in *. lia.
    - unfold msPerDay in *. lia. }
  rewrite S1.
  assert (D : setHours_local (date + - back * msPerDay + off) 0 0 0 0
              = (Day (date + off) - back) * msPerDay).
  { replace (date + - back * msPerDay + off) with (date + off + - back * msPerDay) by lia.
    unfold setHours_local, MakeDate. rewrite Day_shift.
    change (MakeTime 0 0 0 0) with 0. lia. }
  rewrite setHours_near; rewrite ?D.
  - reflexivity.
  - unfold msPerDay in *. lia.
  - unfold msPerDay in *. lia.
Qed.

(** A Date at local midnight near the reference date, moved by [k] days. *)
Lemma midnight_moved day k :
  Z.abs (day - Day (date + off)) <= 14 -> Z.abs k <= 13 ->
  setDate tz (Some (day * msPerDay - off))
    (num_add (getDate tz (Some (day * msPerDay - off))) (Some k))
  = Some ((day + k) * msPerDay - off).
Proof.
  intros Hd Hk. destruct Hs as [Ho _]. destruct (time_split (date + off)) as [E R].
  assert (N : Z.abs (day * msPerDay - off - date) <= 33 * msPerDay)
    by (unfold msPerDay in *; lia).
  destruct (getters_near _ N) as (_ & _ & -> & _).
  cbn [num_add].
  rewrite setDate_near; rewrite ?setDate_shift.
  - f_equal. lia.
  - exact N.
  - unfold msPerDay in *. lia.
Qed.

Lemma end_of_day day :
  Z.abs (day - Day (date + off)) <= 20 ->
  setHours tz (Some (day * msPerDay - off)) 23 59 59 999
  = Some (day * msPerDay + 86399999 - off).
Proof.
  intros Hd. destruct Hs as [Ho _]. destruct (time_split (date + off)) as [E R].
  assert (D : setHours_local (day * msPerDay - off + off) 23 59 59 999
              = day * msPerDay + 86399999).
  { replace (day * msPerDay - off + off) with (0 + day * msPerDay) by lia.
    unfold setHours_local, MakeDate.
    rewrite Day_shift. change (Day 0) with 0. reflexivity. }
  rewrite setHours_near; rewrite ?D.
  - reflexivity.
  - unfold msPerDay in *. lia.
  - unfold msPerDay in *. lia.
Qed.

(** The periods in closed form. *)
Lemma getWeeklyPeriod_steady :
  getWeeklyPeriod tz (Some date)
  = mkPeriod
      (Some ((Day (date + off) - WeekDay (date + off)) * msPerDay - off))
      (Some ((Day (date + off) - WeekDay (date + off) + 6) * msPerDay + 86399999 - off))
      Weekly.
Proof.
  pose proof (WeekDay_range (date + off)) as W.
  unfold getWeeklyPeriod.
  destruct (getters_near date) as (_ & _ & -> & ->); [unfold msPerDay; lia |].
  cbn [num_sub]. rewrite (week_start _ W).
  rewrite midnight_moved by lia. now rewrite end_of_day by lia.
Qed.

Lemma weekStart_steady :
  weekStart tz date
  = Some ((Day (date + off) - (WeekDay (date + off) + 6) mod 7) * msPerDay - off).
Proof.
  pose proof (WeekDay_range (date + off)) as W.
  pose proof (Z.mod_pos_bound (WeekDay (date + off) + 6) 7 ltac:(lia)) as M.
  unfold weekStart.
  destruct (getters_near date) as (_ & _ & -> & ->); [unfold msPerDay; lia |].
  cbn [num_add num_rem num_sub Z.eqb].
  rewrite Z.rem_mod_nonneg by lia.
  apply week_start. lia.
Qed.

Lemma nextWeekStart_steady :
  nextWeekStart tz date
  = Some ((Day (date + off) - (WeekDay (date + off) + 6) mod 7 + 7) * msPerDay - off).
Proof.
  pose proof (Z.mod_pos_bound (WeekDay (date + off) + 6) 7 ltac:(lia)) as M.
  unfold nextWeekStart. rewrite weekStart_steady. apply midnight_moved; lia.
Qed.

Lemma prevWeekStart_steady :
  prevWeekStart tz date
  = Some ((Day (date + off) - (WeekDay (date + off) + 6) mod 7 - 7) * msPerDay - off).
Proof.
  pose proof (Z.mod_pos_bound (WeekDay (date + off) + 6) 7 ltac:(lia)) as M.
  unfold prevWeekStart. rewrite weekStart_steady.
  pose proof (midnight_moved (Day (date + off) - (WeekDay (date + off) + 6) mod 7) (-7)
                ltac:(lia) ltac:(lia)) as P.
  destruct (getDate tz (Some ((Day (date + off) - (WeekDay (date + off) + 6) mod 7)
                                * msPerDay - off))) as [g |];
    cbn [num_add num_sub] in *.
  - replace (g - 7) with (g + -7) by lia. rewrite P. f_equal; lia.
  - rewrite P. f_equal; lia.
Qed.

(** A Date of the month of the reference date: day [dt] of the month, or of
    the month after it, [tm] milliseconds into the day. *)
Lemma month_date m dt h mi s ms :
  (m = MonthFromTime (date + off) /\ 0 <= dt <= 31
   \/ m = MonthFromTime (date + off) + 1 /\ 0 <= dt <= 1) ->
  0 <= MakeTime h mi s ms < msPerDay ->
  Date_of tz (Some (YearFromTime (date + off))) (Some m) dt h mi s ms
  = Some ((MakeDay (YearFromTime (date + off)) m 0 + dt) * msPerDay
          + MakeTime h mi s ms - off)
  /\ Z.abs ((MakeDay (YearFromTime (date + off)) m 0 + dt) * msPerDay
            + MakeTime h mi s ms - off - date) <= 33 * msPerDay.
Proof.
  intros Hm Ht. destruct Hs as [Ho _]. destruct (time_split (date + off)) as [E R].
  pose proof Hy as Hy'. rewrite local_date in Hy'.
  destruct (fields_range (date + off)) as [Rm Rd].
  pose proof (daysInMonth_range (YearFromTime (date + off)) _ Rm) as Rdim.
  pose proof (MakeDay_first (date + off)) as F.
  pose proof (MakeDay_day0 (YearFromTime (date + off)) (MonthFromTime (date + off)) Rm) as Z0.
  rewrite (MakeDay_date _ _ (daysInMonth _ _)), F in Z0.
  assert (B : Z.abs ((MakeDay (YearFromTime (date + off)) m 0 + dt) * msPerDay
                     + MakeTime h mi s ms - off - date) <= 33 * msPerDay
               /\ Z.abs ((MakeDay (YearFromTime (date + off)) m 0 + dt) * msPerDay
                        + MakeTime h mi s ms - date) <= 33 * msPerDay).
  { destruct Hm as [[-> Hd] | [-> Hd]]; [rewrite F | rewrite Z0];
      unfold msPerDay in *; lia. }
  split; [| exact (proj1 B)].
  rewrite Date_of_near; rewrite Date_local_eq by lia; [reflexivity | exact (proj2 B)].
Qed.

Lemma at_civil_near L y m dt tm :
  Z.abs (L - off - date) <= 33 * msPerDay ->
  YearFromTime L = y -> MonthFromTime L = m -> DateFromTime L = dt ->
  TimeWithinDay L = tm ->
  at_civil tz (Some (L - off)) y m dt tm.
Proof.
  intros N <- <- <- <-. unfold at_civil.
  destruct (getters_near _ N) as (-> & -> & -> & _).
  cbn [option_map]. rewrite (local_near _ N).
  replace (L - off + off) with L by lia. repeat split.
Qed.

Lemma Day_at day time :
  0 <= time < msPerDay ->
  Day (day * msPerDay + time) = day /\ TimeWithinDay (day * msPerDay + time) = time.
Proof. exact (Day_MakeDate day time). Qed.

(** Day [dt] of the month of the reference date. *)
Lemma day_of_month dt h mi s ms :
  1 <= dt <= daysInMonth (YearFromTime (date + off)) (MonthFromTime (date + off)) ->
  0 <= MakeTime h mi s ms < msPerDay ->
  at_civil tz
    (Date_of tz (Some (YearFromTime (date + off))) (Some (MonthFromTime (date + off)))
       dt h mi s ms)
    (YearFromTime (date + off)) (MonthFromTime (date + off)) dt (MakeTime h mi s ms).
Proof.
  intros Hd Ht.
  destruct (fields_range (date + off)) as [Rm _].
  pose proof (daysInMonth_range (YearFromTime (date + off)) _ Rm) as Rdim.
  assert (Hin : MonthFromTime (date + off) = MonthFromTime (date + off) /\ 0 <= dt <= 31
                \/ MonthFromTime (date + off) = MonthFromTime (date + off) + 1
                   /\ 0 <= dt <= 1) by (left; split; [reflexivity | lia]).
  destruct (month_date (MonthFromTime (date + off)) dt h mi s ms Hin Ht) as [Eq N].
  rewrite Eq. clear Eq Hin.
  set (tm := MakeTime h mi s ms) in *. clearbody tm.
  rewrite (MakeDay_first (date + off)) in N |- *.
  destruct (Day_at (Day (date + off) - DateFromTime (date + off) + dt) tm Ht) as [D T].
  destruct (fields_in_month (date + off) dt _ Hd D) as (A & B & C).
  apply at_civil_near; assumption.
Qed.

(** Day 0 of the month after it: its last day. *)
Lemma last_day_of_month h mi s ms :
  0 <= MakeTime h mi s ms < msPerDay ->
  at_civil tz
    (Date_of tz (Some (YearFromTime (date + off)))
       (Some (MonthFromTime (date + off) + 1)) 0 h mi s ms)
    (YearFromTime (date + off)) (MonthFromTime (date + off))
    (daysInMonth (YearFromTime (date + off)) (MonthFromTime (date + off)))
    (MakeTime h mi s ms).
Proof.
  intros Ht.
  destruct (fields_range (date + off)) as [Rm _].
  pose proof (daysInMonth_range (YearFromTime (date + off)) _ Rm) as Rdim.
  assert (Hin : MonthFromTime (date + off) + 1 = MonthFromTime (date + off) /\ 0 <= 0 <= 31
                \/ MonthFromTime (date + off) + 1 = MonthFromTime (date + off) + 1
                   /\ 0 <= 0 <= 1) by (right; split; [reflexivity | lia]).
  destruct (month_date (MonthFromTime (date + off) + 1) 0 h mi s ms Hin Ht) as [Eq N].
  rewrite Eq. clear Eq Hin.
  set (tm := MakeTime h mi s ms) in *. clearbody tm.
  assert (F : MakeDay (YearFromTime (date + off)) (MonthFromTime (date + off) + 1) 0 + 0
              = Day (date + off) - DateFromTime (date + off)
                + daysInMonth (YearFromTime (date + off)) (MonthFromTime (date + off))).
  { rewrite MakeDay_day0, MakeDay_date, MakeDay_first by exact Rm. lia. }
  rewrite F in N |- *.
  destruct (Day_at (Day (date + off) - DateFromTime (date + off)
                    + daysInMonth (YearFromTime (date + off)) (MonthFromTime (date + off)))
              tm Ht) as [D T].
  assert (Hd : 1 <= daysInMonth (YearFromTime (date + off)) (MonthFromTime (date + off))
               <= daysInMonth (YearFromTime (date + off)) (MonthFromTime (date + off)))
    by lia.
  destruct (fields_in_month (date + off) _ _ Hd D) as (A & B & C).
  apply at_civil_near; assumption.
Qed.

Lemma weekly_steady :
  let p := getWeeklyPeriod tz (Some date) in
  exists s e,
    startDate p = Some s /\ endDate p = Some e
    /\ getDay tz (Some s) = Some 0 /\ TimeWithinDay (LocalTime tz s) = 0
    /\ s <= date <= e
    /\ e = s + 6 * msPerDay + MakeTime 23 59 59 999
    /\ getDay tz (Some e) = Some 6
    /\ TimeWithinDay (LocalTime tz e) = MakeTime 23 59 59 999.
Proof.
  cbv zeta. rewrite getWeeklyPeriod_steady. cbn [startDate endDate].
  pose proof (WeekDay_range (date + off)) as W.
  destruct Hs as [Ho _]. destruct (time_split (date + off)) as [E R].
  set (D := Day (date + off)) in *. set (w := WeekDay (date + off)) in *.
  assert (Hw : w = (D + 4) mod 7) by reflexivity.
  assert (Ns : Z.abs ((D - w) * msPerDay - off - date) <= 33 * msPerDay)
    by (unfold msPerDay in *; lia).
  assert (Ne : Z.abs ((D - w + 6) * msPerDay + 86399999 - off - date) <= 33 * msPerDay)
    by (unfold msPerDay in *; lia).
  do 2 eexists. split; [reflexivity |]. split; [reflexivity |].
  destruct (getters_near _ Ns) as (_ & _ & _ & ->).
  destruct (getters_near _ Ne) as (_ & _ & _ & ->).
  rewrite (local_near _ Ns), (local_near _ Ne).
  replace ((D - w) * msPerDay - off + off) with (0 + (D - w) * msPerDay) by lia.
  replace ((D - w + 6) * msPerDay + 86399999 - off + off)
    with (86399999 + (D - w + 6) * msPerDay) by lia.
  unfold WeekDay. rewrite !Day_shift. change (Day 0) with 0. change (Day 86399999) with 0.
  change (MakeTime 23 59 59 999) with 86399999.
  clearbody D w. unfold TimeWithinDay, msPerDay in *.
  repeat split; try lia; try (f_equal; Z.div_mod_to_equations; lia);
    Z.div_mod_to_equations; lia.
Qed.

Lemma server_weekly_steady :
  let p := period_of tz S_weekly date in
  exists s e,
    periodStart p = Some s /\ periodEnd p = Some e
    /\ getDay tz (Some s) = Some 1 /\ TimeWithinDay (LocalTime tz s) = 0
    /\ s <= date < e
    /\ e = s + 7 * msPerDay.
Proof.
  cbv zeta. cbn [period_of periodStart periodEnd].
  rewrite weekStart_steady, nextWeekStart_steady.
  pose proof (WeekDay_range (date + off)) as W.
  destruct Hs as [Ho _]. destruct (time_split (date + off)) as [E R].
  set (D := Day (date + off)) in *. set (w := WeekDay (date + off)) in *.
  assert (Hw : w = (D + 4) mod 7) by reflexivity.
  pose proof (Z.mod_pos_bound (w + 6) 7 ltac:(lia)) as M.
  set (b := (w + 6) mod 7) in *.
  assert (Hb : b = (w + 6) mod 7) by reflexivity.
  assert (Ns : Z.abs ((D - b) * msPerDay - off - date) <= 33 * msPerDay)
    by (unfold msPerDay in *; lia).
  do 2 eexists. split; [reflexivity |]. split; [reflexivity |].
  destruct (getters_near _ Ns) as (_ & _ & _ & ->).
  rewrite (local_near _ Ns).
  replace ((D - b) * msPerDay - off + off) with (0 + (D - b) * msPerDay) by lia.
  unfold WeekDay. rewrite !Day_shift. change (Day 0) with 0.
  clearbody D w b. unfold TimeWithinDay, msPerDay in *.
  repeat split; try lia; try (f_equal; Z.div_mod_to_equations; lia);
    Z.div_mod_to_equations; lia.
Qed.

Lemma server_other_steady :
  let p := period_of tz S_other date in
  let w := period_of tz S_weekly date in
  exists s,
    periodStart p = Some s /\ periodStart w = Some (s + 7 * msPerDay)
    /\ periodEnd p = Some (s + 14 * msPerDay) /\ periodEnd w = periodEnd p
    /\ getDay tz (Some s) = Some 1 /\ TimeWithinDay (LocalTime tz s) = 0
    /\ overtimeThreshold p = 80%float.
Proof.
  cbv zeta. cbn [period_of periodStart periodEnd overtimeThreshold].
  rewrite weekStart_steady, nextWeekStart_steady, prevWeekStart_steady.
  pose proof (WeekDay_range (date + off)) as W.
  destruct Hs as [Ho _]. destruct (time_split (date + off)) as [E R].
  set (D := Day (date + off)) in *. set (w := WeekDay (date + off)) in *.
  assert (Hw : w = (D + 4) mod 7) by reflexivity.
  pose proof (Z.mod_pos_bound (w + 6) 7 ltac:(lia)) as M.
  set (b := (w + 6) mod 7) in *.
  assert (Hb : b = (w + 6) mod 7) by reflexivity.
  assert (Ns : Z.abs ((D - b - 7) * msPerDay - off - date) <= 33 * msPerDay)
    by (unfold msPerDay in *; lia).
  eexists. split; [reflexivity |].
  destruct (getters_near _ Ns) as (_ & _ & _ & ->).
  rewrite (local_near _ Ns).
  replace ((D - b - 7) * msPerDay - off + off) with (0 + (D - b - 7) * msPerDay) by lia.
  unfold WeekDay. rewrite !Day_shift. change (Day 0) with 0.
  clearbody D w b. unfold TimeWithinDay, msPerDay in *.
  repeat split; try reflexivity; try (f_equal; lia);
    try (f_equal; Z.div_mod_to_equations; lia); Z.div_mod_to_equations; lia.
Qed.

Lemma bimonthly_steady :
  let p := getBiMonthlyPeriod tz (Some date) in
  let y := YearFromTime (date + off) in
  let m := MonthFromTime (date + off) in
  (DateFromTime (date + off) <= 15 ->
     at_civil tz (startDate p) y m 1 0 /\ at_civil tz (endDate p) y m 15 86399999)
  /\ (15 < DateFromTime (date + off) ->
        at_civil tz (startDate p) y m 16 0
        /\ at_civil tz (endDate p) y m (daysInMonth y m) 86399999).
Proof.
  cbv zeta. unfold getBiMonthlyPeriod.
  destruct (getters_near date) as (-> & -> & -> & _); [unfold msPerDay; lia |].
  cbn [num_leb num_add].
  destruct (fields_range (date + off)) as [Hm Hd].
  pose proof (daysInMonth_range (YearFromTime (date + off)) _ Hm) as Hdim.
  destruct (Z.leb_spec (DateFromTime (date + off)) 15) as [Hle | Hgt];
    cbn [startDate endDate].
  - split; [intros _ | lia]. split.
    + apply (day_of_month 1 0 0 0 0); [lia | unfold msPerDay; cbn; lia].
    + apply (day_of_month 15 23 59 59 999); [lia | unfold msPerDay; cbn; lia].
  - split; [lia | intros _]. split.
    + apply (day_of_month 16 0 0 0 0); [lia | unfold msPerDay; cbn; lia].
    + apply (last_day_of_month 23 59 59 999). unfold msPerDay; cbn; lia.
Qed.

Lemma monthly_steady :
  let p := getMonthlyPeriod tz (Some date) in
  let y := YearFromTime (date + off) in
  let m := MonthFromTime (date + off) in
  at_civil tz (startDate p) y m 1 0
  /\ at_civil tz (endDate p) y m (daysInMonth y m) 86399999
  /\ periodStart (period_of tz S_monthly date) = startDate p
  /\ periodEnd (period_of tz S_monthly date) = num_add (endDate p) (Some 1).
Proof.
  cbv zeta. unfold getMonthlyPeriod. cbn [period_of periodStart periodEnd startDate endDate].
  unfold monthStartDate, nextMonthStart.
  destruct (getters_near date) as (-> & -> & _ & _); [unfold msPerDay; lia |].
  cbn [num_add].
  destruct (fields_range (date + off)) as [Hm Hd].
  pose proof (daysInMonth_range (YearFromTime (date + off)) _ Hm) as Hdim.
  split; [apply (day_of_month 1 0 0 0 0); [lia | unfold msPerDay; cbn; lia] |].
  split; [apply (last_day_of_month 23 59 59 999); unfold msPerDay; cbn; lia |].
  split; [reflexivity |].
  destruct (month_date (MonthFromTime (date + off) + 1) 1 0 0 0 0
              ltac:(right; split; [reflexivity | lia])
              ltac:(unfold msPerDay; cbn; lia)) as [-> _].
  destruct (month_date (MonthFromTime (date + off) + 1) 0 23 59 59 999
              ltac:(right; split; [reflexivity | lia])
              ltac:(unfold msPerDay; cbn; lia)) as [-> _].
  cbn [num_add]. f_equal.
  change (MakeTime 0 0 0 0) with 0. change (MakeTime 23 59 59 999) with 86399999.
  unfold msPerDay. lia.
Qed.

End Steady.

(** Why the year is bounded below: the calculator passes [getFullYear] back
    to the Date constructor, which reads a year from 0 to 99 as 1900 + year. *)
Lemma monthly_period_two_digit_year :
  getFullYear Scenario.utc (Some Scenario.year_fifty) = Some 50
  /\ getFullYear Scenario.utc
       (startDate (getMonthlyPeriod Scenario.utc (Some Scenario.year_fifty)))
     = Some 1950.
Proof. split; vm_compute; reflexivity. Qed.

(** Why it is bounded above: the time values end on September 13th of the
    year 275760, and the end of that month is no Date. *)
Lemma monthly_end_past_last_instant :
  at_civil Scenario.utc (Some Scenario.last_instant) 275760 8 13 0
  /\ at_civil Scenario.utc
       (startDate (getMonthlyPeriod Scenario.utc (Some Scenario.last_instant)))
       275760 8 1 0
  /\ endDate (getMonthlyPeriod Scenario.utc (Some Scenario.last_instant)) = None.
Proof. repeat split; vm_compute; reflexivity. Qed.

(** Why the offset of the zone must be steady: in Santiago the clocks go
    from 24:00 of Saturday 2025-09-06 to 01:00 of Sunday, so that the week of
    Wednesday 2025-09-10 starts at 01:00:00.000 of Sunday, the local time
    [setHours(0, 0, 0, 0)] lands on, and not at 00:00:00.000. *)
Lemma weekly_start_on_skipped_midnight :
  at_civil Scenario.santiago (Some Scenario.santiago_wednesday) 2025 8 10 36000000
  /\ getDay Scenario.santiago (Some Scenario.santiago_wednesday) = Some 3
  /\ at_civil Scenario.santiago
       (startDate (getWeeklyPeriod Scenario.santiago (Some Scenario.santiago_wednesday)))
       2025 8 7 3600000
  /\ getDay Scenario.santiago
       (startDate (getWeeklyPeriod Scenario.santiago (Some Scenario.santiago_wednesday)))
     = Some 0.
Proof. repeat split; vm_compute; reflexivity. Qed.


Lemma santiago_summer_time t isUTC :
  Z.abs (t - Scenario.santiago_november) <= 33 * msPerDay ->
  Scenario.santiago t isUTC = -3 * 3600000.
Proof.
  unfold Scenario.santiago.
  change (MakeDate (MakeDay 2025 8 7) (MakeTime 4 0 0 0)) with 1757217600000.
  change (MakeDate (MakeDay 2025 8 7) (MakeTime 1 0 0 0)) with 1757206800000.
  change Scenario.santiago_november with 1762952400000. unfold msPerDay.
  intros H. destruct isUTC;
    [destruct (Z.ltb_spec t 1757217600000) | destruct (Z.ltb_spec t 1757206800000)];
    lia.
Qed.


